(** * wme-sdk-plus: cross-instance shared state and the selection-mode singleton

    A shallow embedding of
      - packages/shared-state/src/lib/shared-state-manager.ts
      - packages/module-ui--selection-mode/src/lib/selection-mode-manager.ts
    and the properties of the named locks, the key/value store and the
    selection-mode guard that rest on them.

    Conventions of the embedding.
      - The page's [window] object is a finite map from property names to
        the storage objects this package puts there; a storage object is
        identified by the property that holds it, so every manager of one
        namespace reads and writes the same object.
      - [state.locks] and [state.data] are plain objects used as
        dictionaries, and a world gives their own properties as finite
        maps.  A plain object also answers to the names it inherits from
        [Object.prototype], and an assignment to ["__proto__"] replaces its
        prototype instead of storing a property: the maps say what the code
        sees on [ordinary] names and on objects that are [pristine], and
        the statements whose truth depends on it carry these as
        hypotheses.  The order of [for ... in] is the order of the map's
        key list.
      - [number] values that count milliseconds are integers ([Z]);
        [Date.now()] reads the clock of the world, which stands still
        during one synchronous call and is moved by [advance] between calls.
      - [Math.random().toString(36).substr(2, 9)] is an input of the
        constructor.
      - A method is a computation in a state-and-exception monad: it maps
        the state before the call to a completion (a value or a thrown
        error) and the state after it. *)

From Stdlib Require Import ZArith.
From stdpp Require Import base option list gmap fin_maps strings pretty.

Local Open Scope Z_scope.
Local Open Scope string_scope.

(** ** JavaScript values and completions *)

(** [any]: the JSON-like values scripts put in the store. *)
#[warnings="-register-all"]
Inductive Any : Type :=
  | AUndefined
  | ANull
  | ABool (b : bool)
  | ANumber (n : Z)
  | AString (s : string)
  | AArray (items : list Any)
  | AObject (fields : list (string * Any)).

(** [v !== undefined] *)
Definition is_defined (v : Any) : bool :=
  match v with AUndefined => false | _ => true end.

(** [new Error(message)] *)
Record JsError : Type := Error { message : string }.

Inductive Completion (A : Type) : Type :=
  | Normal (value : A)
  | Throw (error : JsError).
Arguments Normal {A} value.
Arguments Throw {A} error.

(** A computation over a state [S]: effects survive a throw, as in JS. *)
Definition M (S A : Type) : Type := S -> Completion A * S.

Definition ret {S A} (a : A) : M S A := fun s => (Normal a, s).

Definition bind {S A B} (m : M S A) (k : A -> M S B) : M S B :=
  fun s =>
    match m s with
    | (Normal a, s') => k a s'
    | (Throw e, s') => (Throw e, s')
    end.

Definition throw {S A} (e : JsError) : M S A := fun s => (Throw e, s).

Definition gets {S A} (f : S -> A) : M S A := fun s => (Normal (f s), s).

Definition modify {S} (f : S -> S) : M S unit := fun s => (Normal tt, f s).

Notation "'let*' x := m 'in' k" := (bind m (fun x => k))
  (at level 10, x name, m at level 100, k at level 200).
Notation "m ;; k" := (bind m (fun _ => k))
  (at level 100, k at level 200, right associativity).

(** The state after a call, whatever it completed with. *)
Definition exec {S A} (m : M S A) (s : S) : S := snd (m s).
Definition result {S A} (m : M S A) (s : S) : Completion A := fst (m s).

(** ** shared-state-manager.ts: the data model *)

(** [interface LockState]: [ownerId: string | null] is [None] for [null];
    [metadata?] is [None] when the property is [undefined]. *)
Record LockState : Type := {
  ownerId : option string;
  timestamp : Z;
  metadata : option (gmap string Any);
}.

(** [interface SharedStateStorage] *)
Record SharedStateStorage : Type := {
  version : string;
  locks : gmap string LockState;
  data : gmap string Any;
}.

(** [interface LockAcquisitionResult]: an optional property that the
    object literal leaves out is [None]. *)
Record LockAcquisitionResult : Type := {
  success : bool;
  currentOwnerId : option (option string);
  wasStale : option bool;
}.

(** [interface SharedStateManagerOptions] *)
Record SharedStateManagerOptions : Type := {
  namespace : option string;
  version_ : option string;
  staleLockTimeout : option Z;
}.

(** What the calls of one page share: [getWindow()] and the clock. *)
Record World : Type := {
  window : gmap string SharedStateStorage;
  clock : Z;
}.

Definition set_window (f : gmap string SharedStateStorage -> gmap string SharedStateStorage)
    (w : World) : World :=
  {| window := f (window w); clock := clock w |}.

(** Time passing between two calls. *)
Definition advance (ms : Z) (w : World) : World :=
  {| window := window w; clock := clock w + ms |}.

(** [Date.now()] *)
Definition Date_now : M World Z := gets clock.

(** The private fields of [class SharedStateManager] ([_window] is the
    world's). All are [readonly]: a manager is a value. *)
Record SharedStateManager : Type := {
  _namespace : string;
  _version : string;
  _staleLockTimeout : Z;
  _instanceId : string;
}.

(** A reference to the storage object held at [window[name]]. *)
Inductive StateRef : Type := AtWindow (name : string).

Definition deref (r : StateRef) (w : World) : option SharedStateStorage :=
  let 'AtWindow name := r in window w !! name.

Definition with_locks (f : gmap string LockState -> gmap string LockState)
    (st : SharedStateStorage) : SharedStateStorage :=
  {| version := version st; locks := f (locks st); data := data st |}.

Definition with_data (f : gmap string Any -> gmap string Any)
    (st : SharedStateStorage) : SharedStateStorage :=
  {| version := version st; locks := locks st; data := f (data st) |}.

Definition update (r : StateRef) (f : SharedStateStorage -> SharedStateStorage) : M World unit :=
  let 'AtWindow name := r in modify (set_window (alter f name)).

(** [state.locks[lockName]]: [None] is [undefined] *)
Definition locks_get (state : StateRef) (lockName : string) : M World (option LockState) :=
  gets (fun w => deref state w ≫= fun st => locks st !! lockName).

(** [state.locks[lockName] = lock] *)
Definition locks_set (state : StateRef) (lockName : string) (lock : LockState) : M World unit :=
  update state (with_locks <[lockName := lock]>).

(** [delete state.locks[lockName]] *)
Definition locks_delete (state : StateRef) (lockName : string) : M World unit :=
  update state (with_locks (delete lockName)).

(** The property names [for (const lockName in state.locks)] starts with. *)
Definition locks_keys (state : StateRef) : M World (list string) :=
  gets (fun w => from_option (fun st => (map_to_list (locks st)).*1) [] (deref state w)).

(** [state.data[key]]: a missing property reads as [undefined] *)
Definition data_get (state : StateRef) (key : string) : M World Any :=
  gets (fun w => default AUndefined (deref state w ≫= fun st => data st !! key)).

(** [key in state.data] *)
Definition data_has (state : StateRef) (key : string) : M World bool :=
  gets (fun w => bool_decide (is_Some (deref state w ≫= fun st => data st !! key))).

(** [state.data[key] = value] *)
Definition data_set (state : StateRef) (key : string) (value : Any) : M World unit :=
  update state (with_data <[key := value]>).

(** [delete state.data[key]] *)
Definition data_delete (state : StateRef) (key : string) : M World unit :=
  update state (with_data (delete key)).

(** [for (const lockName in state.locks) body]: the names are fixed when the
    loop starts, and a property deleted before its turn is skipped. *)
Fixpoint for_in {A} (state : StateRef) (names : list string)
    (body : string -> A -> M World A) (acc : A) : M World A :=
  match names with
  | [] => ret acc
  | lockName :: rest =>
      let* lock := locks_get state lockName in
      match lock with
      | Some _ => let* acc' := body lockName acc in for_in state rest body acc'
      | None => for_in state rest body acc
      end
  end.

(** Reading a property of [undefined]. *)
Definition TypeError_undefined {S A} : M S A :=
  throw (Error "Cannot read properties of undefined").

(** ** shared-state-manager.ts: the class *)

(** [x || fallback] on an optional string: [undefined] and [''] are falsy. *)
Definition or_string (x : option string) (fallback : string) : string :=
  match x with
  | Some s => if decide (s = "") then fallback else s
  | None => fallback
  end.

(** [x || fallback] on an optional number: [undefined] and [0] are falsy. *)
Definition or_number (x : option Z) (fallback : Z) : Z :=
  match x with
  | Some n => if decide (n = 0) then fallback else n
  | None => fallback
  end.

(** [lock.ownerId] used as a condition: [null] and [''] are falsy. *)
Definition truthy_owner (o : option string) : bool :=
  match o with
  | Some s => bool_decide (s ≠ "")
  | None => false
  end.

Definition DEFAULT_NAMESPACE : string := "__WME_SDK_PLUS_SHARED_STATE__".

(** [_generateInstanceId], with [random] for
    [Math.random().toString(36).substr(2, 9)]. *)
Definition _generateInstanceId (random : string) : M World string :=
  let* t := Date_now in
  ret ("instance_" +:+ pretty t +:+ "_" +:+ random).

Definition _ensureSharedState (this : SharedStateManager) : M World unit :=
  let* present := gets (fun w => window w !! _namespace this) in
  match present with
  | Some _ => ret tt
  | None =>
      modify (set_window <[_namespace this :=
        {| version := _version this; locks := ∅; data := ∅ |}]>)
  end.

Definition _getSharedState (this : SharedStateManager) : M World StateRef :=
  _ensureSharedState this ;;
  ret (AtWindow (_namespace this)).

(** [constructor(options = {})] *)
Definition new_SharedStateManager (options : SharedStateManagerOptions) (random : string)
    : M World SharedStateManager :=
  let* id := _generateInstanceId random in
  let this := {| _namespace := or_string (namespace options) DEFAULT_NAMESPACE;
                 _version := or_string (version_ options) "1.0.0";
                 _staleLockTimeout := or_number (staleLockTimeout options) 60000;
                 _instanceId := id |} in
  _ensureSharedState this ;;
  ret this.

Definition _isLockStale (this : SharedStateManager) (lock : LockState) : M World bool :=
  let* t := Date_now in
  ret (bool_decide (t - timestamp lock > _staleLockTimeout this)).

Definition acquireLock (this : SharedStateManager) (lockName : string)
    (metadata : option (gmap string Any)) : M World LockAcquisitionResult :=
  let* state := _getSharedState this in
  let* lock := locks_get state lockName in
  (* lock && lock.ownerId && !this._isLockStale(lock) *)
  let* held :=
    match lock with
    | Some l =>
        if truthy_owner (ownerId l)
        then let* stale := _isLockStale this l in ret (negb stale)
        else ret false
    | None => ret false
    end in
  if held then
    ret {| success := false;
           currentOwnerId := ownerId <$> lock;
           wasStale := Some false |}
  else
    (* const wasStale = lock && this._isLockStale(lock) *)
    let* wasStale :=
      match lock with
      | Some l => let* stale := _isLockStale this l in ret (Some stale)
      | None => ret None
      end in
    let* t := Date_now in
    locks_set state lockName
      {| ownerId := Some (_instanceId this); timestamp := t; metadata := metadata |} ;;
    ret {| success := true;
           currentOwnerId := None;
           wasStale := Some (default false wasStale) |}.

Definition releaseLock (this : SharedStateManager) (lockName : string) : M World bool :=
  let* state := _getSharedState this in
  let* lock := locks_get state lockName in
  match lock with
  | Some l =>
      if decide (ownerId l = Some (_instanceId this))
      then locks_delete state lockName ;; ret true
      else ret false
  | None => ret false
  end.

Definition hasLock (this : SharedStateManager) (lockName : string) : M World bool :=
  let* state := _getSharedState this in
  let* lock := locks_get state lockName in
  (* lock?.ownerId === this._instanceId *)
  ret (match lock with
       | Some l => bool_decide (ownerId l = Some (_instanceId this))
       | None => false
       end).

Definition isLockHeld (this : SharedStateManager) (lockName : string) : M World bool :=
  let* state := _getSharedState this in
  let* lock := locks_get state lockName in
  match lock with
  | Some l =>
      match ownerId l with
      | Some _ => let* stale := _isLockStale this l in ret (negb stale)
      | None => ret false
      end
  | None => ret false
  end.

(** [null] is [None]; the copy [{ ...lock }] has the fields of [lock]. *)
Definition getLockInfo (this : SharedStateManager) (lockName : string)
    : M World (option LockState) :=
  let* state := _getSharedState this in
  let* lock := locks_get state lockName in
  match lock with
  | None => ret None
  | Some l =>
      let* stale := _isLockStale this l in
      if stale then ret None
      else ret (Some {| ownerId := ownerId l; timestamp := timestamp l;
                        metadata := metadata l |})
  end.

Definition releaseAllLocks (this : SharedStateManager) : M World nat :=
  let* state := _getSharedState this in
  let* names := locks_keys state in
  for_in state names (fun lockName released =>
    let* lock := locks_get state lockName in
    match lock with
    | None => TypeError_undefined
    | Some l =>
        if decide (ownerId l = Some (_instanceId this))
        then locks_delete state lockName ;; ret (S released)
        else ret released
    end) 0%nat.

Definition setSharedData (this : SharedStateManager) (key : string) (value : Any)
    : M World unit :=
  let* state := _getSharedState this in
  data_set state key value.

Definition getSharedData (this : SharedStateManager) (key : string) (defaultValue : Any)
    : M World Any :=
  let* state := _getSharedState this in
  let* v := data_get state key in
  ret (if is_defined v then v else defaultValue).

Definition deleteSharedData (this : SharedStateManager) (key : string) : M World bool :=
  let* state := _getSharedState this in
  let* present := data_has state key in
  if present then data_delete state key ;; ret true else ret false.

Definition clearSharedData (this : SharedStateManager) : M World unit :=
  let* state := _getSharedState this in
  update state (with_data (fun _ => ∅)).

Definition getInstanceId (this : SharedStateManager) : string := _instanceId this.
Definition getNamespace (this : SharedStateManager) : string := _namespace this.
Definition getVersion (this : SharedStateManager) : string := _version this.

Definition listLocks (this : SharedStateManager) (includeStale : bool)
    : M World (list string) :=
  let* state := _getSharedState this in
  let* names := locks_keys state in
  for_in state names (fun lockName found =>
    let* lock := locks_get state lockName in
    match lock with
    | None => TypeError_undefined
    | Some l =>
        let* keep := (if includeStale then ret true
                      else let* stale := _isLockStale this l in ret (negb stale)) in
        if keep then ret (found ++ [lockName])%list else ret found
    end) [].

Definition cleanupStaleLocks (this : SharedStateManager) : M World nat :=
  let* state := _getSharedState this in
  let* names := locks_keys state in
  for_in state names (fun lockName removed =>
    let* lock := locks_get state lockName in
    match lock with
    | None => TypeError_undefined
    | Some l =>
        let* stale := _isLockStale this l in
        if stale then locks_delete state lockName ;; ret (S removed)
        else ret removed
    end) 0%nat.

(** ** selection-mode-manager.ts *)

Module SelectionMode.

Inductive SelectableFeatureType : Type :=
  | segment | venue | bigJunction | node | mapComment | city
  | restrictedDrivingArea | permanentHazard | segmentSuggestion.

Inductive PermanentHazardSubtype : Type :=
  | schoolZone | railroadCrossing | speedBump | sharpCurve | dangerousTurn.

(** [number | string] *)
Inductive FeatureId : Type := NumberId (n : Z) | StringId (s : string).

Record SelectionFilter : Type := {
  types : option (list SelectableFeatureType);
  allowedIds : option (list FeatureId);
  permanentHazardSubtypes : option (list PermanentHazardSubtype);
}.

(** A function value handed in by the caller, known by its identity. *)
Inductive Callback : Type := Fn (id : nat).

Record SelectionModeOptions : Type := {
  filter : SelectionFilter;
  preventTabSwitching : option bool;
  keepCurrentTab : option bool;
  captureOnly : option bool;
  onSelect : option Callback;
  onCancel : option Callback;
}.

(** The objects the manager talks to are defined outside these two files:
    they are handles here, and what the manager does to them is the list of
    calls it makes. *)
Inductive WmeSDK : Type := Sdk (id : nat).

Inductive ISidebarTabSwitchController : Type := Sidebar (id : nat).

Record OpenLayersSelectionController : Type := { _filter : SelectionFilter }.

Record MethodInterceptor : Type := { target : WmeSDK; methodName : string }.

Inductive Call : Type :=
  | Sidebar_saveCurrentTab
  | Sidebar_preventTabSwitching
  | Sidebar_allowTabSwitching
  | Sidebar_restoreSavedTab
  | OpenLayers_activate
  | OpenLayers_deactivate
  | Interceptor_enable
  | Interceptor_disable
  | Invoke (f : Callback).

(** The control object [{ exit, getFilter, updateFilter }]: three closures
    over the manager. *)
Inductive SelectionModeResult : Type := ControlObject.

(** The fields of [class SelectionModeManager]; [null] is [None]. *)
Record SelectionModeManager : Type := {
  _isActive : bool;
  _currentOptions : option SelectionModeOptions;
  _currentSdk : option WmeSDK;
  _sidebarController : option ISidebarTabSwitchController;
  _selectionInterceptor : option MethodInterceptor;
  _sharedStateManager : SharedStateManager;
  _openLayersController : option OpenLayersSelectionController;
}.

(** One manager, the page it runs in and the calls made so far. *)
Record Session : Type := {
  manager : SelectionModeManager;
  page : World;
  trace : list Call;
}.

(** [this._isActive = b] and the other assignments to fields. *)
Definition set__isActive (b : bool) (m : SelectionModeManager) : SelectionModeManager :=
  {| _isActive := b;
     _currentOptions := _currentOptions m;
     _currentSdk := _currentSdk m;
     _sidebarController := _sidebarController m;
     _selectionInterceptor := _selectionInterceptor m;
     _sharedStateManager := _sharedStateManager m;
     _openLayersController := _openLayersController m |}.

Definition set__currentOptions (o : option SelectionModeOptions) (m : SelectionModeManager)
    : SelectionModeManager :=
  {| _isActive := _isActive m;
     _currentOptions := o;
     _currentSdk := _currentSdk m;
     _sidebarController := _sidebarController m;
     _selectionInterceptor := _selectionInterceptor m;
     _sharedStateManager := _sharedStateManager m;
     _openLayersController := _openLayersController m |}.

Definition set__currentSdk (sdk : option WmeSDK) (m : SelectionModeManager)
    : SelectionModeManager :=
  {| _isActive := _isActive m;
     _currentOptions := _currentOptions m;
     _currentSdk := sdk;
     _sidebarController := _sidebarController m;
     _selectionInterceptor := _selectionInterceptor m;
     _sharedStateManager := _sharedStateManager m;
     _openLayersController := _openLayersController m |}.

Definition set__selectionInterceptor (i : option MethodInterceptor)
    (m : SelectionModeManager) : SelectionModeManager :=
  {| _isActive := _isActive m;
     _currentOptions := _currentOptions m;
     _currentSdk := _currentSdk m;
     _sidebarController := _sidebarController m;
     _selectionInterceptor := i;
     _sharedStateManager := _sharedStateManager m;
     _openLayersController := _openLayersController m |}.

Definition set__openLayersController (c : option OpenLayersSelectionController)
    (m : SelectionModeManager) : SelectionModeManager :=
  {| _isActive := _isActive m;
     _currentOptions := _currentOptions m;
     _currentSdk := _currentSdk m;
     _sidebarController := _sidebarController m;
     _selectionInterceptor := _selectionInterceptor m;
     _sharedStateManager := _sharedStateManager m;
     _openLayersController := c |}.

Definition assign (f : SelectionModeManager -> SelectionModeManager) : M Session unit :=
  modify (fun s => {| manager := f (manager s); page := page s; trace := trace s |}).

Definition field {A} (f : SelectionModeManager -> A) : M Session A :=
  gets (fun s => f (manager s)).

(** A call on a collaborator. *)
Definition call (c : Call) : M Session unit :=
  modify (fun s => {| manager := manager s; page := page s; trace := trace s ++ [c] |}).

(** A method of the shared-state manager, run on the page. *)
Definition lift {A} (m : M World A) : M Session A :=
  fun s =>
    let (r, w) := m (page s) in
    (r, {| manager := manager s; page := w; trace := trace s |}).

(** An optional boolean used as a condition. *)
Definition truthy (b : option bool) : bool := default false b.

(** [b !== false] *)
Definition not_false (b : option bool) : bool := default true b.

(** An object-or-null used as a condition. *)
Definition present {A} (x : option A) : bool :=
  match x with Some _ => true | None => false end.

Definition ALREADY_IN_SELECTION_MODE : string :=
  "Already in selection mode. Exit the current mode before entering a new one.".

Definition ANOTHER_INSTANCE_ACTIVE : string :=
  "Another SDK+ instance is already in selection mode. Only one selection mode can be active at a time.".

(** [constructor(sidebarController?)] *)
Definition new_SelectionModeManager (sidebarController : option ISidebarTabSwitchController)
    (random : string) : M World SelectionModeManager :=
  let* shared := new_SharedStateManager
    {| namespace := Some "__WME_SDK_PLUS_SELECTION_MODE__";
       version_ := None;
       staleLockTimeout := Some 60000 |} random in
  ret {| _isActive := false;
         _currentOptions := None;
         _currentSdk := None;
         _sidebarController := sidebarController;
         _selectionInterceptor := None;
         _sharedStateManager := shared;
         _openLayersController := None |}.

Definition enterSelectionMode (sdk : WmeSDK) (options : SelectionModeOptions)
    : M Session SelectionModeResult :=
  let* active := field _isActive in
  if active then throw (Error ALREADY_IN_SELECTION_MODE)
  else
    let* shared := field _sharedStateManager in
    let* lockResult := lift (acquireLock shared "selectionMode" None) in
    if negb (success lockResult) then throw (Error ANOTHER_INSTANCE_ACTIVE)
    else
      assign (set__isActive true) ;;
      assign (set__currentOptions (Some options)) ;;
      assign (set__currentSdk (Some sdk)) ;;
      let* sidebar := field _sidebarController in
      (if truthy (keepCurrentTab options) && present sidebar
       then call Sidebar_saveCurrentTab else ret tt) ;;
      (if not_false (preventTabSwitching options) && present sidebar
       then call Sidebar_preventTabSwitching else ret tt) ;;
      assign (set__openLayersController (Some {| _filter := filter options |})) ;;
      call OpenLayers_activate ;;
      assign (set__selectionInterceptor
                (Some {| target := sdk; methodName := "setSelection" |})) ;;
      call Interceptor_enable ;;
      ret ControlObject.

Definition isInSelectionMode : M Session bool := field _isActive.

Definition _exitSelectionMode (cancelled : bool) : M Session unit :=
  let* active := field _isActive in
  if negb active then ret tt
  else
    let* controller := field _openLayersController in
    (if present controller
     then call OpenLayers_deactivate ;; assign (set__openLayersController None)
     else ret tt) ;;
    let* options := field _currentOptions in
    let* sidebar := field _sidebarController in
    (if not_false (options ≫= preventTabSwitching) && present sidebar
     then call Sidebar_allowTabSwitching else ret tt) ;;
    (if truthy (options ≫= keepCurrentTab) && present sidebar
     then call Sidebar_restoreSavedTab else ret tt) ;;
    let* interceptor := field _selectionInterceptor in
    (if present interceptor
     then call Interceptor_disable ;; assign (set__selectionInterceptor None)
     else ret tt) ;;
    let* shared := field _sharedStateManager in
    lift (releaseLock shared "selectionMode") ;;
    match (if cancelled then options ≫= onCancel else None) with
    | Some f => call (Invoke f)
    | None => ret tt
    end ;;
    assign (set__isActive false) ;;
    assign (set__currentOptions None) ;;
    assign (set__currentSdk None).

(** [exit: () => this._exitSelectionMode(false)] of the control object. *)
Definition exit : M Session unit := _exitSelectionMode false.

End SelectionMode.

(** ** Vocabulary of the statements *)

(** The lock stored under [lockName] in the manager's namespace. *)
Definition stored (this : SharedStateManager) (w : World) (lockName : string)
    : option LockState :=
  window w !! _namespace this ≫= fun st => locks st !! lockName.

(** The age of the lock exceeds the manager's [staleLockTimeout]. *)
Definition stale (this : SharedStateManager) (w : World) (l : LockState) : Prop :=
  clock w - timestamp l > _staleLockTimeout this.

#[global] Instance stale_dec this w l : Decision (stale this w l) :=
  decide (clock w - timestamp l > _staleLockTimeout this).

(** The namespace object exists, as it does once a constructor has run. *)
Definition initialised (this : SharedStateManager) (w : World) : Prop :=
  is_Some (window w !! _namespace this).

(** The two mappings of a namespace, empty when the namespace is not there. *)
Definition locks_of (ns : string) (w : World) : gmap string LockState :=
  from_option locks ∅ (window w !! ns).

Definition data_of (ns : string) (w : World) : gmap string Any :=
  from_option data ∅ (window w !! ns).

(** The lock [acquireLock] writes at the clock of [w]. *)
Definition fresh_lock (this : SharedStateManager) (w : World)
    (metadata : option (gmap string Any)) : LockState :=
  {| ownerId := Some (_instanceId this); timestamp := clock w; metadata := metadata |}.

Definition owned_by (id : string) (l : LockState) : Prop := ownerId l = Some id.

(** The string-keyed members of [Object.prototype]: a plain object answers
    to these names without having them. *)
Definition OBJECT_PROTOTYPE_NAMES : list string :=
  ["constructor"; "__defineGetter__"; "__defineSetter__"; "hasOwnProperty";
   "__lookupGetter__"; "__lookupSetter__"; "isPrototypeOf"; "propertyIsEnumerable";
   "toString"; "valueOf"; "__proto__"; "toLocaleString"].

Definition inherited (name : string) : bool :=
  bool_decide (name ∈ OBJECT_PROTOTYPE_NAMES).

(** A name that a plain object has only if it was put there. *)
Definition ordinary (name : string) : Prop := inherited name = false.

(** An object created as [{}] whose prototype is still [Object.prototype]:
    nothing is held under ["__proto__"], the name whose assignment replaces
    the prototype.  Once a lock has become the prototype, [delete] and
    [for ... in] do not find it under its name: [releaseLock] answers true
    without removing it, and the loops visit the names of its fields
    instead. *)
Definition pristine {A} (object : gmap string A) : Prop :=
  object !! "__proto__" = None.

#[global] Instance owned_by_dec id l : Decision (owned_by id l) :=
  decide (ownerId l = Some id).

(** The world once [_ensureSharedState] has run. *)
Definition ensured (this : SharedStateManager) (w : World) : World :=
  exec (_ensureSharedState this) w.

(** The state [acquireLock] leaves when it takes the lock. *)
Definition taken (this : SharedStateManager) (lockName : string)
    (metadata : option (gmap string Any)) (w : World) : World :=
  set_window
    (alter (with_locks <[lockName := fresh_lock this w metadata]>) (_namespace this))
    (ensured this w).

(** The locks [listLocks(includeStale)] reports at the clock of [w]. *)
Definition listed (this : SharedStateManager) (w : World) (includeStale : bool)
    (l : LockState) : Prop :=
  includeStale = true \/ ~ stale this w l.

#[global] Instance listed_dec this w b l : Decision (listed this w b l).
Proof. unfold listed. apply _. Defined.

(** The entries a deleting loop over [names] removes: those it visits that
    satisfy [P]. *)
Definition doomed (P : LockState -> Prop) (names : list string)
    (kl : string * LockState) : Prop :=
  kl.1 ∈ names /\ P kl.2.

#[global] Instance doomed_dec P `{!forall l, Decision (P l)} names kl :
  Decision (doomed P names kl).
Proof. unfold doomed. apply _. Defined.

(** The names a collecting loop over [names] keeps, in its order. *)
Definition selected (P : LockState -> Prop) {P_dec : forall l, Decision (P l)}
    (m : gmap string LockState) (names : list string) : list string :=
  omap (fun k => m !! k ≫= fun l => if decide (P l) then Some k else None) names.

(** ** Callers *)

(** What a call on a [SharedStateManager] can be asked, and what it answers. *)
Inductive Operation : Type :=
  | AcquireLock (lockName : string) (metadata : option (gmap string Any))
  | ReleaseLock (lockName : string)
  | HasLock (lockName : string)
  | IsLockHeld (lockName : string)
  | GetLockInfo (lockName : string)
  | ReleaseAllLocks
  | SetSharedData (key : string) (value : Any)
  | GetSharedData (key : string) (defaultValue : Any)
  | DeleteSharedData (key : string)
  | ClearSharedData
  | ListLocks (includeStale : bool)
  | CleanupStaleLocks.

Inductive Reply : Type :=
  | RAcquisition (r : LockAcquisitionResult)
  | RBoolean (b : bool)
  | RLock (l : option LockState)
  | RNumber (n : nat)
  | RValue (v : Any)
  | RNames (names : list string)
  | RVoid.

Definition reply {A} (f : A -> Reply) (m : M World A) : M World Reply :=
  let* a := m in ret (f a).

Definition perform (this : SharedStateManager) (op : Operation) : M World Reply :=
  match op with
  | AcquireLock lockName metadata => reply RAcquisition (acquireLock this lockName metadata)
  | ReleaseLock lockName => reply RBoolean (releaseLock this lockName)
  | HasLock lockName => reply RBoolean (hasLock this lockName)
  | IsLockHeld lockName => reply RBoolean (isLockHeld this lockName)
  | GetLockInfo lockName => reply RLock (getLockInfo this lockName)
  | ReleaseAllLocks => reply RNumber (releaseAllLocks this)
  | SetSharedData key value => reply (fun _ => RVoid) (setSharedData this key value)
  | GetSharedData key defaultValue => reply RValue (getSharedData this key defaultValue)
  | DeleteSharedData key => reply RBoolean (deleteSharedData this key)
  | ClearSharedData => reply (fun _ => RVoid) (clearSharedData this)
  | ListLocks includeStale => reply RNames (listLocks this includeStale)
  | CleanupStaleLocks => reply RNumber (cleanupStaleLocks this)
  end.

(** An owner that keeps calling [acquireLock] on its lock, waiting
    [delay] milliseconds before each call. *)
Fixpoint retries (this : SharedStateManager) (lockName : string)
    (metadata : option (gmap string Any)) (delays : list Z)
    : M World (list LockAcquisitionResult) :=
  match delays with
  | [] => ret []
  | delay :: rest =>
      modify (advance delay) ;;
      let* r := acquireLock this lockName metadata in
      let* rs := retries this lockName metadata rest in
      ret (r :: rs)
  end.

(** The managers there are: those a constructor call returns. *)
Definition constructed (this : SharedStateManager) : Prop :=
  exists options random w,
    result (new_SharedStateManager options random) w = Normal this.

(** ** The scenario of the test suite

    Namespace ["ns1"], timeout 100 ms, two instances on an empty page at
    clock 1000; the first one acquires ["x"]; 150 ms pass. *)

Definition ns1_options : SharedStateManagerOptions :=
  {| namespace := Some "ns1"; version_ := None; staleLockTimeout := Some 100 |}.

Definition blank_page : World := {| window := ∅; clock := 1000 |}.

Definition instance1 : SharedStateManager :=
  {| _namespace := "ns1"; _version := "1.0.0"; _staleLockTimeout := 100;
     _instanceId := "instance_1000_abc" |}.

Definition instance2 : SharedStateManager :=
  {| _namespace := "ns1"; _version := "1.0.0"; _staleLockTimeout := 100;
     _instanceId := "instance_1000_xyz" |}.

Definition page_ready : World :=
  exec (new_SharedStateManager ns1_options "abc" ;;
        new_SharedStateManager ns1_options "xyz") blank_page.

Definition lock_x : LockState :=
  {| ownerId := Some "instance_1000_abc"; timestamp := 1000; metadata := None |}.

Definition page_held : World := exec (acquireLock instance1 "x" None) page_ready.

Definition page_stale : World := advance 150 page_held.

(** Later: the second instance takes ["y"] at 1060, the first one ["z"], and
    at 1120 ["x"] is stale while ["y"] and ["z"] are not. *)
Definition page_mixed : World :=
  exec (modify (advance 60) ;;
        acquireLock instance2 "y" None ;;
        acquireLock instance1 "z" None ;;
        modify (advance 60)) page_held.

Definition lock_y : LockState :=
  {| ownerId := Some "instance_1000_xyz"; timestamp := 1060; metadata := None |}.

Definition lock_z : LockState :=
  {| ownerId := Some "instance_1000_abc"; timestamp := 1060; metadata := None |}.


(** A manager of the same namespace that waits a whole second before it
    calls a lock stale. *)
Definition patient : SharedStateManager :=
  {| _namespace := "ns1"; _version := "1.0.0"; _staleLockTimeout := 1000;
     _instanceId := "instance_1000_tst" |}.




(** The answer [acquireLock] gives while [owner] holds the lock. *)
Definition refused (owner : string) : LockAcquisitionResult :=
  {| success := false; currentOwnerId := Some (Some owner); wasStale := Some false |}.

(** The waiting time of a list of delays. *)
Definition total (delays : list Z) : Z := foldr Z.add 0 delays.

(** Two selection-mode managers of one page; the first enters selection
    mode. *)
Definition selection_shared (random : string) : SharedStateManager :=
  {| _namespace := "__WME_SDK_PLUS_SELECTION_MODE__"; _version := "1.0.0";
     _staleLockTimeout := 60000;
     _instanceId := "instance_1000_" +:+ random |}.

Definition selection_manager (random : string) : SelectionMode.SelectionModeManager :=
  {| SelectionMode._isActive := false;
     SelectionMode._currentOptions := None;
     SelectionMode._currentSdk := None;
     SelectionMode._sidebarController := Some (SelectionMode.Sidebar 0);
     SelectionMode._selectionInterceptor := None;
     SelectionMode._sharedStateManager := selection_shared random;
     SelectionMode._openLayersController := None |}.

Definition segments_only : SelectionMode.SelectionModeOptions :=
  {| SelectionMode.filter :=
       {| SelectionMode.types := Some [SelectionMode.segment];
          SelectionMode.allowedIds := None;
          SelectionMode.permanentHazardSubtypes := None |};
     SelectionMode.preventTabSwitching := None;
     SelectionMode.keepCurrentTab := None;
     SelectionMode.captureOnly := None;
     SelectionMode.onSelect := None;
     SelectionMode.onCancel := None |}.

Definition selection_page : World :=
  exec (SelectionMode.new_SelectionModeManager (Some (SelectionMode.Sidebar 0)) "abc" ;;
        SelectionMode.new_SelectionModeManager (Some (SelectionMode.Sidebar 0)) "xyz")
    blank_page.

Definition session_idle : SelectionMode.Session :=
  {| SelectionMode.manager := selection_manager "abc";
     SelectionMode.page := selection_page;
     SelectionMode.trace := [] |}.

Definition session_active : SelectionMode.Session :=
  exec (SelectionMode.enterSelectionMode (SelectionMode.Sdk 0) segments_only) session_idle.

Definition session_other : SelectionMode.Session :=
  {| SelectionMode.manager := selection_manager "xyz";
     SelectionMode.page := SelectionMode.page session_active;
     SelectionMode.trace := [] |}.

(** ** Kinds of call *)

(** The calls that write to [state.data]; the others write, if at all, to
    [state.locks]. *)
Definition writes_data (op : Operation) : bool :=
  match op with
  | SetSharedData _ _ | DeleteSharedData _ | ClearSharedData => true
  | _ => false
  end.

(** The answer [acquireLock] gives when it takes over a stale lock. *)
Definition took_over : LockAcquisitionResult :=
  {| success := true; currentOwnerId := None; wasStale := Some true |}.

(** ** selection-mode-manager.ts and openlayers-selection-controller.ts:
       filters, the closures handed out, and the control object *)

Module SelectionControl.
Import SelectionMode.

#[global] Instance SelectableFeatureType_eq_dec : EqDecision SelectableFeatureType.
Proof. solve_decision. Defined.

#[global] Instance FeatureId_eq_dec : EqDecision FeatureId.
Proof. solve_decision. Defined.

(** [array.includes(x)] *)
Definition includes {A} `{EqDecision A} (array : list A) (x : A) : bool :=
  bool_decide (x ∈ array).

(** [array && array.length > 0] *)
Definition has_items {A} (array : option (list A)) : bool :=
  match array with
  | Some (_ :: _) => true
  | _ => false
  end.

(** [function matchesFilter(objectType, ids, filter)] *)
Definition matchesFilter (objectType : SelectableFeatureType) (ids : list FeatureId)
    (filter : SelectionFilter) : bool :=
  if has_items (types filter) && negb (includes (default [] (types filter)) objectType)
  then false
  else
    if has_items (allowedIds filter)
    then
      let hasAllowedId :=
        existsb (fun id => includes (default [] (allowedIds filter)) id) ids in
      if negb hasAllowedId then false else true
    else true.

(** [OpenLayersSelectionController._matchesFilter]: for a permanent hazard
    with subtypes in the filter the source checks nothing further. *)
Definition _matchesFilter (this : OpenLayersSelectionController)
    (featureType : SelectableFeatureType) (featureId : FeatureId) : bool :=
  if has_items (types (_filter this))
     && negb (includes (default [] (types (_filter this))) featureType)
  then false
  else
    if has_items (allowedIds (_filter this))
       && negb (includes (default [] (allowedIds (_filter this))) featureId)
    then false
    else true.

(** [Partial<SelectionFilter>]: [None] for a property the object does not
    have, [Some v] for one it has, [v] being its value or [undefined]. *)
Record PartialSelectionFilter : Type := {
  new_types : option (option (list SelectableFeatureType));
  new_allowedIds : option (option (list FeatureId));
  new_permanentHazardSubtypes : option (option (list PermanentHazardSubtype));
}.

(** [{ ...filter, ...newFilter }] *)
Definition spread (filter : SelectionFilter) (newFilter : PartialSelectionFilter)
    : SelectionFilter :=
  {| types := default (types filter) (new_types newFilter);
     allowedIds := default (allowedIds filter) (new_allowedIds newFilter);
     permanentHazardSubtypes :=
       default (permanentHazardSubtypes filter) (new_permanentHazardSubtypes newFilter) |}.

(** [OpenLayersSelectionController.updateFilter] *)
Definition controller_updateFilter (this : OpenLayersSelectionController)
    (filter : PartialSelectionFilter) : OpenLayersSelectionController :=
  {| _filter := spread (_filter this) filter |}.

(** [OpenLayersSelectionController.canSelectFeature], the controller's
    [_onAttemptSelect] being a parameter. *)
Definition canSelectFeature (this : OpenLayersSelectionController)
    (_onAttemptSelect : option (SelectableFeatureType -> FeatureId -> M Session bool))
    (featureType : SelectableFeatureType) (featureId : FeatureId) : M Session bool :=
  let matches := _matchesFilter this featureType featureId in
  match _onAttemptSelect with
  | Some attempt =>
      let* allowed := attempt featureType featureId in
      ret (allowed && matches)
  | None => ret matches
  end.

(** What a function of the caller does when it is called with a selection
    [{ ids, objectType }]: any computation on the session, the control
    object's [exit] and [updateFilter] included. *)
Definition Behaviour : Type :=
  Callback -> list FeatureId -> SelectableFeatureType -> M Session unit.

(** The session at the moment the caller's function [f] starts to run. *)
Definition called (f : Callback) (s : Session) : Session :=
  {| manager := manager s; page := page s; trace := trace s ++ [Invoke f] |}.

(** [options.onSelect({ ids, objectType })] when there is one. *)
Definition notify (run : Behaviour) (options : SelectionModeOptions)
    (ids : list FeatureId) (objectType : SelectableFeatureType) : M Session unit :=
  match onSelect options with
  | Some f => call (Invoke f) ;; run f ids objectType
  | None => ret tt
  end.

(** The callback [enterSelectionMode] hands to the OpenLayers controller.
    Its [return] reads [this._currentOptions] again, after [onSelect] has
    run. *)
Definition onAttemptSelect (run : Behaviour)
    (featureType : SelectableFeatureType) (featureId : FeatureId) : M Session bool :=
  let* options := field _currentOptions in
  match options with
  | None => ret false
  | Some o =>
      let matches := matchesFilter featureType [featureId] (filter o) in
      (if matches then notify run o [featureId] featureType else ret tt) ;;
      (* matches && !this._currentOptions.captureOnly *)
      if matches then
        let* options' := field _currentOptions in
        match options' with
        | Some o' => ret (negb (truthy (captureOnly o')))
        | None => throw (Error "Cannot read properties of null")
        end
      else ret false
  end.

(** What a decision function tells the interceptor: go on with the original
    method, or return [undefined] in its place. *)
Inductive Verdict : Type := CONTINUE_INVOCATION | Suppress.

(** The decision function [enterSelectionMode] installs on
    [sdk.Editing.setSelection]. *)
Definition onSetSelection (run : Behaviour)
    (objectType : SelectableFeatureType) (ids : list FeatureId) : M Session Verdict :=
  let* active := field _isActive in
  let* options := field _currentOptions in
  match (if active then options else None) with
  | None => ret CONTINUE_INVOCATION
  | Some o =>
      if negb (matchesFilter objectType ids (filter o)) then ret Suppress
      else
        if truthy (captureOnly o) then notify run o ids objectType ;; ret Suppress
        else notify run o ids objectType ;; ret CONTINUE_INVOCATION
  end.

(** What the decision function answers on a selection that passes the
    filter, [captureOnly] being read before [onSelect] is called. *)
Definition verdict_of (options : SelectionModeOptions) : Verdict :=
  if truthy (captureOnly options) then Suppress else CONTINUE_INVOCATION.

Definition set_filter (f : SelectionFilter) (o : SelectionModeOptions)
    : SelectionModeOptions :=
  {| filter := f;
     preventTabSwitching := preventTabSwitching o;
     keepCurrentTab := keepCurrentTab o;
     captureOnly := captureOnly o;
     onSelect := onSelect o;
     onCancel := onCancel o |}.

(** [getFilter: () => ({ ...this._currentOptions!.filter })] *)
Definition getFilter : M Session SelectionFilter :=
  let* options := field _currentOptions in
  match options with
  | Some o => ret (filter o)
  | None => throw (Error "Cannot read properties of null")
  end.

(** [updateFilter: (newFilter) => { ... }] *)
Definition updateFilter (newFilter : PartialSelectionFilter) : M Session unit :=
  let* options := field _currentOptions in
  match options with
  | None => ret tt
  | Some o =>
      assign (set__currentOptions (Some (set_filter (spread (filter o) newFilter) o))) ;;
      let* controller := field _openLayersController in
      match controller with
      | Some c =>
          assign (set__openLayersController (Some (controller_updateFilter c newFilter)))
      | None => ret tt
      end
  end.

(** The calls [enterSelectionMode] makes on its collaborators, and those
    [_exitSelectionMode] makes when controller and interceptor are there. *)
Definition entering_calls (options : SelectionModeOptions)
    (sidebar : option ISidebarTabSwitchController) : list Call :=
  (if truthy (keepCurrentTab options) && present sidebar
   then [Sidebar_saveCurrentTab] else [])
  ++ (if not_false (preventTabSwitching options) && present sidebar
      then [Sidebar_preventTabSwitching] else [])
  ++ [OpenLayers_activate; Interceptor_enable].

Definition leaving_calls (options : SelectionModeOptions)
    (sidebar : option ISidebarTabSwitchController) : list Call :=
  [OpenLayers_deactivate]
  ++ (if not_false (preventTabSwitching options) && present sidebar
      then [Sidebar_allowTabSwitching] else [])
  ++ (if truthy (keepCurrentTab options) && present sidebar
      then [Sidebar_restoreSavedTab] else [])
  ++ [Interceptor_disable].

(** The manager as [enterSelectionMode] leaves it. *)
Definition entered (sdk : WmeSDK) (options : SelectionModeOptions)
    (m : SelectionModeManager) : SelectionModeManager :=
  {| _isActive := true;
     _currentOptions := Some options;
     _currentSdk := Some sdk;
     _sidebarController := _sidebarController m;
     _selectionInterceptor := Some {| target := sdk; methodName := "setSelection" |};
     _sharedStateManager := _sharedStateManager m;
     _openLayersController := Some {| _filter := filter options |} |}.

(** The manager as the constructor and [_exitSelectionMode] leave it. *)
Definition idle (m : SelectionModeManager) : Prop :=
  _isActive m = false
  /\ _currentOptions m = None
  /\ _currentSdk m = None
  /\ _selectionInterceptor m = None
  /\ _openLayersController m = None.

(** The lock of the selection mode, as this manager sees it. *)
Definition selection_lock (s : Session) : option LockState :=
  stored (_sharedStateManager (manager s)) (page s) "selectionMode".

(** The lock is there for the taking: absent, or stale. *)
Definition lock_free (s : Session) : Prop :=
  selection_lock s = None
  \/ (exists l, selection_lock s = Some l
                /\ stale (_sharedStateManager (manager s)) (page s) l).

(** While in selection mode, the controller filters as the options say. *)
Definition in_sync (s : Session) : Prop :=
  exists o c,
    _currentOptions (manager s) = Some o
    /\ _openLayersController (manager s) = Some c
    /\ _filter c = filter o.

(** Another manager running on the page of [s]. *)
Definition on_page_of (s : Session) (m : SelectionModeManager) (ms : Z) : Session :=
  {| manager := m; page := advance ms (page s); trace := [] |}.

(** The manager as [_exitSelectionMode] leaves it. *)
Definition left (m : SelectionModeManager) : SelectionModeManager :=
  {| _isActive := false;
     _currentOptions := None;
     _currentSdk := None;
     _sidebarController := _sidebarController m;
     _selectionInterceptor := None;
     _sharedStateManager := _sharedStateManager m;
     _openLayersController := None |}.

(** The calls [_exitSelectionMode(cancelled)] makes, from the fields of the
    manager. *)
Definition exit_calls (cancelled : bool) (m : SelectionModeManager) : list Call :=
  (if present (_openLayersController m) then [OpenLayers_deactivate] else [])
  ++ (if not_false (_currentOptions m ≫= preventTabSwitching)
         && present (_sidebarController m)
      then [Sidebar_allowTabSwitching] else [])
  ++ (if truthy (_currentOptions m ≫= keepCurrentTab) && present (_sidebarController m)
      then [Sidebar_restoreSavedTab] else [])
  ++ (if present (_selectionInterceptor m) then [Interceptor_disable] else [])
  ++ match (if cancelled then _currentOptions m ≫= onCancel else None) with
     | Some f => [Invoke f]
     | None => []
     end.

(** A manager whose shared-state manager is the one a constructor call of
    [SelectionModeManager] made. *)
Definition built (m : SelectionModeManager) : Prop :=
  exists sidebar random w m0,
    result (new_SelectionModeManager sidebar random) w = Normal m0
    /\ _sharedStateManager m = _sharedStateManager m0.

End SelectionControl.

(** A minute and a millisecond after [session_active] was entered, the other
    manager of the page enters as well; [session_overtaken] is the first
    manager on the page as it is then. *)
Definition session_taking_over : SelectionMode.Session :=
  exec (SelectionMode.enterSelectionMode (SelectionMode.Sdk 1) segments_only)
    (SelectionControl.on_page_of session_active (selection_manager "xyz") 60001).

Definition session_overtaken : SelectionMode.Session :=
  {| SelectionMode.manager := SelectionMode.manager session_active;
     SelectionMode.page := SelectionMode.page session_taking_over;
     SelectionMode.trace := SelectionMode.trace session_active |}.

Definition lock_of_other : LockState :=
  {| ownerId := Some "instance_1000_xyz"; timestamp := 61001; metadata := None |}.

(** The options of [segments_only] with an [onSelect] function, the session
    entered with them, and two things the function may do: nothing to the
    session, or [exit] of the control object. *)
Definition segments_picked : SelectionMode.SelectionModeOptions :=
  {| SelectionMode.filter := SelectionMode.filter segments_only;
     SelectionMode.preventTabSwitching := None;
     SelectionMode.keepCurrentTab := None;
     SelectionMode.captureOnly := None;
     SelectionMode.onSelect := Some (SelectionMode.Fn 0);
     SelectionMode.onCancel := None |}.

Definition session_picking : SelectionMode.Session :=
  exec (SelectionMode.enterSelectionMode (SelectionMode.Sdk 0) segments_picked) session_idle.

Definition stays : SelectionControl.Behaviour := fun _ _ _ => ret tt.

Definition leaves : SelectionControl.Behaviour := fun _ _ _ => SelectionMode.exit.

(** ** SharedSelectionStateManager: one lock for the selection mode

    The class that keeps a single record at
    [window['__WME_SDK_PLUS_SELECTION_MODE__']]. *)

Module SharedSelectionState.

Definition SHARED_STATE_KEY : string := "__WME_SDK_PLUS_SELECTION_MODE__".
Definition VERSION : string := "1.0.0".

(** [interface SharedSelectionState] *)
Record SharedSelectionState : Type := {
  version : string;
  isActive : bool;
  activeInstanceId : option string;
  timestamp : Z;
}.

(** What the class reads of the page: [window[SHARED_STATE_KEY]] and the
    clock. *)
Record Page : Type := {
  shared : option SharedSelectionState;
  clock : Z;
}.

Definition set_shared (f : option SharedSelectionState -> option SharedSelectionState)
    (p : Page) : Page :=
  {| shared := f (shared p); clock := clock p |}.

(** Time passing between two calls. *)
Definition advance (ms : Z) (p : Page) : Page :=
  {| shared := shared p; clock := clock p + ms |}.

Definition Date_now : M Page Z := gets clock.

(** The one private field that is the manager's own. *)
Record SharedSelectionStateManager : Type := { _instanceId : string }.

(** [Partial<SharedSelectionState>], for the two properties the class
    passes. *)
Record PartialState : Type := {
  new_isActive : option bool;
  new_activeInstanceId : option (option string);
}.

Definition _generateInstanceId (random : string) : M Page string :=
  let* t := Date_now in
  ret ("instance_" +:+ pretty t +:+ "_" +:+ random).

Definition _ensureSharedState : M Page unit :=
  let* current := gets shared in
  match current with
  | Some _ => ret tt
  | None =>
      let* t := Date_now in
      modify (set_shared (fun _ =>
        Some {| version := VERSION; isActive := false; activeInstanceId := None;
                timestamp := t |}))
  end.

(** [constructor()] *)
Definition new_SharedSelectionStateManager (random : string)
    : M Page SharedSelectionStateManager :=
  let* id := _generateInstanceId random in
  _ensureSharedState ;;
  ret {| _instanceId := id |}.

(** The object read back right after [_ensureSharedState]. *)
Definition _getSharedState : M Page SharedSelectionState :=
  _ensureSharedState ;;
  let* current := gets shared in
  match current with
  | Some state => ret state
  | None => TypeError_undefined
  end.

(** [Object.assign(window[KEY], { ...state, timestamp: Date.now() })] *)
Definition _setSharedState (state : PartialState) : M Page unit :=
  _ensureSharedState ;;
  let* t := Date_now in
  modify (set_shared (fmap (fun old =>
    {| version := version old;
       isActive := default (isActive old) (new_isActive state);
       activeInstanceId := default (activeInstanceId old) (new_activeInstanceId state);
       timestamp := t |}))).

Definition acquireLock (this : SharedSelectionStateManager) : M Page bool :=
  let* state := _getSharedState in
  let* t := Date_now in
  let isStale := bool_decide (t - timestamp state > 60000) in
  if negb (isActive state) || isStale
  then
    _setSharedState {| new_isActive := Some true;
                       new_activeInstanceId := Some (Some (_instanceId this)) |} ;;
    ret true
  else ret false.

Definition releaseLock (this : SharedSelectionStateManager) : M Page unit :=
  let* state := _getSharedState in
  if decide (activeInstanceId state = Some (_instanceId this))
  then _setSharedState {| new_isActive := Some false; new_activeInstanceId := Some None |}
  else ret tt.

Definition hasLock (this : SharedSelectionStateManager) : M Page bool :=
  let* state := _getSharedState in
  ret (bool_decide (activeInstanceId state = Some (_instanceId this))).

Definition isAnyInstanceActive (this : SharedSelectionStateManager) : M Page bool :=
  let* state := _getSharedState in
  let* t := Date_now in
  let isStale := bool_decide (t - timestamp state > 60000) in
  ret (isActive state && negb isStale).

Definition getInstanceId (this : SharedSelectionStateManager) : string :=
  _instanceId this.

(** A page on which some instance was created at clock 500, and two
    instances. *)
Definition page_created : Page :=
  exec (new_SharedSelectionStateManager "abc") {| shared := None; clock := 500 |}.

Definition first : SharedSelectionStateManager := {| _instanceId := "instance_500_abc" |}.

Definition second : SharedSelectionStateManager := {| _instanceId := "instance_500_xyz" |}.

End SharedSelectionState.

(** ** The monad's equations *)

Lemma run_ret {S A B} (a : A) (k : A -> M S B) s : bind (ret a) k s = k a s.
Proof. reflexivity. Qed.

Lemma run_gets {S A B} (f : S -> A) (k : A -> M S B) s : bind (gets f) k s = k (f s) s.
Proof. reflexivity. Qed.

Lemma run_modify {S B} (f : S -> S) (k : unit -> M S B) s :
  bind (modify f) k s = k tt (f s).
Proof. reflexivity. Qed.

Lemma run_throw {S A B} (e : JsError) (k : A -> M S B) s :
  bind (throw e) k s = (Throw e, s).
Proof. reflexivity. Qed.

Lemma run_assoc {S A B C} (m : M S A) (k : A -> M S B) (k' : B -> M S C) s :
  bind (bind m k) k' s = bind m (fun a => bind (k a) k') s.
Proof. unfold bind. destruct (m s) as [[a|e] s']; reflexivity. Qed.

Lemma run_normal {S A B} (m : M S A) (k : A -> M S B) s a s' :
  m s = (Normal a, s') -> bind m k s = k a s'.
Proof. unfold bind. intros ->. reflexivity. Qed.

(** ** The namespace object *)

Lemma set_window_id w : set_window (fun m => m) w = w.
Proof. destruct w; reflexivity. Qed.

Lemma getSharedState_initialised this w st :
  window w !! _namespace this = Some st ->
  _getSharedState this w = (Normal (AtWindow (_namespace this)), w).
Proof.
  intros Hst. unfold _getSharedState, _ensureSharedState.
  rewrite run_assoc, run_gets, Hst. reflexivity.
Qed.

Lemma getSharedState_absent this w :
  window w !! _namespace this = None ->
  _getSharedState this w =
    (Normal (AtWindow (_namespace this)),
     set_window <[_namespace this :=
       {| version := _version this; locks := ∅; data := ∅ |}]> w).
Proof.
  intros Hst. unfold _getSharedState, _ensureSharedState.
  rewrite run_assoc, run_gets, Hst. reflexivity.
Qed.

Lemma stored_Some this w lockName l :
  stored this w lockName = Some l ->
  exists st, window w !! _namespace this = Some st /\ locks st !! lockName = Some l.
Proof.
  unfold stored. destruct (window w !! _namespace this) as [st|]; [|discriminate].
  intros H. exists st. split; [reflexivity | exact H].
Qed.

Lemma isLockStale_run this l w :
  _isLockStale this l w = (Normal (bool_decide (stale this w l)), w).
Proof. reflexivity. Qed.

Lemma acquireLock_held this w lockName md l :
  stored this w lockName = Some l ->
  truthy_owner (ownerId l) = true ->
  ~ stale this w l ->
  acquireLock this lockName md w =
    (Normal {| success := false; currentOwnerId := Some (ownerId l);
               wasStale := Some false |}, w).
Proof.
  intros Hs Ho Hf. destruct (stored_Some _ _ _ _ Hs) as (st & Hst & Hl).
  unfold acquireLock.
  rewrite (run_normal _ _ _ _ _ (getSharedState_initialised _ _ _ Hst)).
  unfold locks_get. rewrite run_gets. cbn [deref]. rewrite Hst. cbn [mbind option_bind].
  rewrite Hl, Ho.
  rewrite run_assoc, (run_normal _ _ _ _ _ (isLockStale_run _ _ _)), run_ret.
  rewrite bool_decide_eq_false_2 by exact Hf. reflexivity.
Qed.

Lemma ensure_initialised this w :
  initialised this w -> exec (_ensureSharedState this) w = w.
Proof.
  intros [st Hst]. unfold exec, _ensureSharedState.
  rewrite run_gets, Hst. reflexivity.
Qed.

Lemma ensure_lookup this w ns :
  window (exec (_ensureSharedState this) w) !! ns =
    match window w !! ns with
    | Some st => Some st
    | None => if decide (_namespace this = ns)
              then Some {| version := _version this; locks := ∅; data := ∅ |}
              else None
    end.
Proof.
  unfold exec, _ensureSharedState. rewrite run_gets.
  destruct (window w !! _namespace this) as [st|] eqn:Hst; cbn.
  - destruct (window w !! ns) as [st'|] eqn:Hns; [reflexivity|].
    case_decide; [congruence | reflexivity].
  - rewrite lookup_insert. case_decide as Hd.
    + subst ns. rewrite Hst. reflexivity.
    + destruct (window w !! ns); reflexivity.
Qed.

Lemma ensure_clock this w : clock (exec (_ensureSharedState this) w) = clock w.
Proof.
  unfold exec, _ensureSharedState. rewrite run_gets.
  destruct (window w !! _namespace this); reflexivity.
Qed.

Lemma getSharedState_run this w :
  _getSharedState this w =
    (Normal (AtWindow (_namespace this)), exec (_ensureSharedState this) w).
Proof.
  destruct (window w !! _namespace this) as [st|] eqn:Hst.
  - rewrite ensure_initialised by (exists st; exact Hst).
    eapply getSharedState_initialised, Hst.
  - rewrite getSharedState_absent by exact Hst.
    unfold exec, _ensureSharedState. rewrite run_gets, Hst. reflexivity.
Qed.

Lemma stored_ensure this w lockName :
  stored this (exec (_ensureSharedState this) w) lockName = stored this w lockName.
Proof.
  unfold stored. rewrite ensure_lookup.
  destruct (window w !! _namespace this); [reflexivity|].
  rewrite decide_True by reflexivity. cbn. apply lookup_empty.
Qed.

Lemma locks_get_run this w lockName :
  locks_get (AtWindow (_namespace this)) lockName w = (Normal (stored this w lockName), w).
Proof. reflexivity. Qed.

Lemma acquireLock_free this w lockName md :
  match stored this w lockName with
  | Some l => truthy_owner (ownerId l) = false \/ stale this w l
  | None => True
  end ->
  acquireLock this lockName md w =
    (Normal {| success := true; currentOwnerId := None;
               wasStale := Some match stored this w lockName with
                                | Some l => bool_decide (stale this w l)
                                | None => false
                                end |},
     taken this lockName md w).
Proof.
  intros Hfree. unfold acquireLock.
  rewrite (run_normal _ _ _ _ _ (getSharedState_run _ _)).
  rewrite (run_normal _ _ _ _ _ (locks_get_run _ _ _)), stored_ensure.
  set (w1 := exec (_ensureSharedState this) w).
  assert (Hst : forall l, stale this w1 l <-> stale this w l).
  { intros l. unfold stale, w1. rewrite ensure_clock. reflexivity. }
  assert (Hnow : clock w1 = clock w) by apply ensure_clock.
  destruct (stored this w lockName) as [l|].
  - assert (Hheld : (if truthy_owner (ownerId l)
                     then let* stale := _isLockStale this l in ret (negb stale)
                     else ret false) w1 = (Normal false, w1)).
    { destruct Hfree as [Ho|Hs].
      - rewrite Ho. reflexivity.
      - destruct (truthy_owner (ownerId l)); [|reflexivity].
        rewrite (run_normal _ _ _ _ _ (isLockStale_run _ _ _)).
        rewrite bool_decide_eq_true_2 by (apply Hst, Hs). reflexivity. }
    rewrite (run_normal _ _ _ _ _ Hheld).
    rewrite run_assoc, (run_normal _ _ _ _ _ (isLockStale_run _ _ _)), run_ret.
    unfold Date_now. rewrite run_gets. unfold locks_set, update.
    rewrite run_modify. unfold ret, taken, ensured, fresh_lock. fold w1. rewrite Hnow.
    rewrite (bool_decide_ext _ _ (Hst l)). reflexivity.
  - rewrite run_ret, run_ret. unfold Date_now. rewrite run_gets.
    unfold locks_set, update. rewrite run_modify.
    unfold ret, taken, ensured, fresh_lock. fold w1. rewrite Hnow. reflexivity.
Qed.

Lemma stored_taken this lockName md w :
  stored this (taken this lockName md w) lockName = Some (fresh_lock this w md).
Proof.
  unfold stored, taken, ensured. cbn [window set_window].
  rewrite lookup_alter_eq, ensure_lookup.
  destruct (window w !! _namespace this) as [st|]; cbn.
  - apply lookup_insert_eq.
  - rewrite decide_True by reflexivity. cbn. apply lookup_insert_eq.
Qed.

Lemma stored_taken_ne this lockName md w other :
  other <> lockName ->
  stored this (taken this lockName md w) other = stored this w other.
Proof.
  intros Hne. unfold stored, taken, ensured. cbn [window set_window].
  rewrite lookup_alter_eq, ensure_lookup.
  destruct (window w !! _namespace this) as [st|]; cbn.
  - apply lookup_insert_ne. congruence.
  - rewrite decide_True by reflexivity. cbn. rewrite lookup_insert_ne by congruence.
    apply lookup_empty.
Qed.

Lemma data_of_taken this lockName md w ns :
  data_of ns (taken this lockName md w) = data_of ns w.
Proof.
  unfold data_of, taken, ensured. cbn [window set_window].
  rewrite lookup_alter. case_decide as Hd; rewrite ensure_lookup.
  - subst ns. destruct (window w !! _namespace this) as [st|]; cbn; [reflexivity|].
    rewrite decide_True by reflexivity. reflexivity.
  - destruct (window w !! ns) as [st|]; cbn; [reflexivity|].
    rewrite decide_False by exact Hd. reflexivity.
Qed.

Lemma locks_of_taken_ne this lockName md w ns :
  ns <> _namespace this ->
  locks_of ns (taken this lockName md w) = locks_of ns w.
Proof.
  intros Hne. unfold locks_of, taken, ensured. cbn [window set_window].
  rewrite lookup_alter_ne by congruence. rewrite ensure_lookup.
  destruct (window w !! ns) as [st|]; cbn; [reflexivity|].
  rewrite decide_False by congruence. reflexivity.
Qed.

(** ** Loops over [state.locks] *)

Lemma size_filter_split {A} (P : string * A -> Prop) `{!forall x, Decision (P x)}
    (m : gmap string A) :
  size m = (size (filter P m) + size (filter (fun kl => ~ P kl) m))%nat.
Proof.
  rewrite <- map_size_disj_union by apply map_disjoint_filter_complement.
  rewrite map_filter_union_complement. reflexivity.
Qed.

Lemma set_window_insert_id ns st w :
  window w !! ns = Some st -> set_window <[ns := st]> w = w.
Proof.
  intros H. destruct w as [win clk]. unfold set_window. cbn in *.
  rewrite insert_id by exact H. reflexivity.
Qed.

Lemma set_window_alter ns f st w :
  window w !! ns = Some st -> set_window (alter f ns) w = set_window <[ns := f st]> w.
Proof.
  intros H. unfold set_window. f_equal.
  apply map_eq. intros i. rewrite lookup_alter, lookup_insert.
  case_decide; [subst; rewrite H|]; reflexivity.
Qed.

Lemma set_window_insert_insert ns st st' w :
  set_window <[ns := st']> (set_window <[ns := st]> w) = set_window <[ns := st']> w.
Proof. unfold set_window. cbn. rewrite insert_insert_eq. reflexivity. Qed.

Section sweep.
(** A loop that deletes the locks satisfying [P] and counts them. *)
Context (P : LockState -> Prop) `{!forall l, Decision (P l)}.
Context (ns : string) (now : Z) (body : string -> nat -> M World nat).

Hypothesis body_run : forall lockName n w st l,
  window w !! ns = Some st ->
  locks st !! lockName = Some l ->
  clock w = now ->
  body lockName n w =
    if decide (P l)
    then (Normal (S n), set_window (alter (with_locks (delete lockName)) ns) w)
    else (Normal n, w).

Lemma for_in_sweep names :
  NoDup names ->
  forall n w st,
    window w !! ns = Some st ->
    clock w = now ->
    exists c,
      for_in (AtWindow ns) names body n w =
        (Normal c,
         set_window <[ns := with_locks (filter (fun kl => ~ doomed P names kl)) st]> w)
      /\ (c + size (filter (fun kl => ~ doomed P names kl) (locks st))
          = n + size (locks st))%nat.
Proof.
  induction 1 as [|k rest Hk Hnd IH]; intros n w st Hst Hnow.
  - exists n. cbn [for_in]. unfold ret.
    assert (Hid : filter (fun kl => ~ doomed P [] kl) (locks st) = locks st).
    { apply map_filter_id. intros i x _ [Hin _]. inversion Hin. }
    unfold with_locks. rewrite Hid. split; [|reflexivity].
    replace {| version := version st; locks := locks st; data := data st |}
      with st by (destruct st; reflexivity).
    rewrite set_window_insert_id by exact Hst. reflexivity.
  - cbn [for_in]. unfold locks_get at 1. rewrite run_gets. cbn [deref].
    rewrite Hst. cbn [mbind option_bind].
    destruct (locks st !! k) as [l|] eqn:Hl.
    + pose proof (body_run k n w st l Hst Hl Hnow) as Hbody.
      destruct (decide (P l)) as [HP|HP].
      * rewrite (set_window_alter _ _ _ _ Hst) in Hbody.
        destruct (IH (S n) (set_window <[ns := with_locks (delete k) st]> w)
                    (with_locks (delete k) st)) as (c & Hrun & Hc).
        { cbn. apply lookup_insert_eq. }
        { exact Hnow. }
        exists c. rewrite (run_normal _ _ _ _ _ Hbody), Hrun, set_window_insert_insert.
        cbn [locks with_locks] in *.
        assert (Heq : filter (fun kl => ~ doomed P rest kl) (delete k (locks st))
                      = filter (fun kl => ~ doomed P (k :: rest) kl) (locks st)).
        { apply map_filter_strong_ext_1. intros i x. unfold doomed. cbn.
          rewrite lookup_delete_Some, elem_of_cons. split.
          - intros (Hn & Hik & Hx). split; [|exact Hx].
            intros [[->|Hin] Hp]; [congruence | apply Hn; split; assumption].
          - intros (Hn & Hx). split; [|split; [|exact Hx]].
            + intros [Hin Hp]. apply Hn. split; [right; exact Hin | exact Hp].
            + intros <-. apply Hn. split; [left; reflexivity|].
              rewrite Hl in Hx. injection Hx as <-. exact HP. }
        rewrite Heq in *. split.
        { unfold with_locks. cbn. rewrite Heq. reflexivity. }
        rewrite map_size_delete_Some in Hc by (exists l; exact Hl).
        assert (size (locks st) <> 0)%nat.
        { apply map_size_ne_0_lookup_2 with k. exists l. exact Hl. }
        lia.
      * destruct (IH n w st Hst Hnow) as (c & Hrun & Hc).
        exists c. rewrite (run_normal _ _ _ _ _ Hbody), Hrun.
        assert (Heq : filter (fun kl => ~ doomed P rest kl) (locks st)
                      = filter (fun kl => ~ doomed P (k :: rest) kl) (locks st)).
        { apply map_filter_ext. intros i x Hx. unfold doomed. cbn.
          rewrite elem_of_cons. split.
          - intros Hn [[->|Hin] Hp]; [|apply Hn; split; assumption].
            rewrite Hl in Hx. injection Hx as <-. contradiction.
          - intros Hn [Hin Hp]. apply Hn. split; [right; exact Hin | exact Hp]. }
        unfold with_locks. rewrite <- Heq. split; [reflexivity | exact Hc].
    + destruct (IH n w st Hst Hnow) as (c & Hrun & Hc).
      exists c. rewrite Hrun.
      assert (Heq : filter (fun kl => ~ doomed P rest kl) (locks st)
                    = filter (fun kl => ~ doomed P (k :: rest) kl) (locks st)).
      { apply map_filter_ext. intros i x Hx. unfold doomed. cbn.
        rewrite elem_of_cons. split.
        - intros Hn [[->|Hin] Hp]; [congruence | apply Hn; split; assumption].
        - intros Hn [Hin Hp]. apply Hn. split; [right; exact Hin | exact Hp]. }
      unfold with_locks. rewrite <- Heq. split; [reflexivity | exact Hc].
Qed.

(** Over all the names of the mapping: the locks satisfying [P] go, the
    others stay, and the count is the number of those that went. *)
Lemma for_in_sweep_all w st :
  window w !! ns = Some st ->
  clock w = now ->
  for_in (AtWindow ns) (map_to_list (locks st)).*1 body 0%nat w =
    (Normal (size (filter (fun kl : string * LockState => P kl.2) (locks st))),
     set_window
       <[ns := with_locks (filter (fun kl : string * LockState => ~ P kl.2)) st]> w).
Proof.
  intros Hst Hnow.
  destruct (for_in_sweep _ (NoDup_fst_map_to_list (locks st)) 0%nat w st Hst Hnow)
    as (c & Hrun & Hc).
  assert (Heq : filter (fun kl => ~ doomed P (map_to_list (locks st)).*1 kl) (locks st)
                = filter (fun kl : string * LockState => ~ P kl.2) (locks st)).
  { apply map_filter_ext. intros i x Hx. unfold doomed. cbn. split.
    - intros Hn Hp. apply Hn. split; [|exact Hp].
      apply list_elem_of_fmap. exists (i, x). split; [reflexivity|].
      apply elem_of_map_to_list. exact Hx.
    - intros Hn [_ Hp]. contradiction. }
  unfold with_locks in Hrun. rewrite Heq in Hrun, Hc. rewrite Hrun.
  rewrite (size_filter_split (fun kl : string * LockState => P kl.2) (locks st)) in Hc.
  assert (Hcount : c = size (filter (fun kl : string * LockState => P kl.2) (locks st)))
    by lia.
  rewrite Hcount. reflexivity.
Qed.
End sweep.

Section collect.
(** A loop that changes nothing and collects the names of the locks
    satisfying [P], in the order of the loop. *)
Context (P : LockState -> Prop) {P_dec : forall l, Decision (P l)}.
Context (ns : string) (now : Z) (body : string -> list string -> M World (list string)).

Hypothesis body_run : forall lockName found w st l,
  window w !! ns = Some st ->
  locks st !! lockName = Some l ->
  clock w = now ->
  body lockName found w =
    (Normal (if decide (P l) then (found ++ [lockName])%list else found), w).

Lemma for_in_collect names found w st :
  window w !! ns = Some st ->
  clock w = now ->
  for_in (AtWindow ns) names body found w =
    (Normal (found ++ selected P (locks st) names)%list, w).
Proof.
  intros Hst Hnow. revert found.
  induction names as [|k rest IH]; intros found.
  - cbn. unfold ret. rewrite app_nil_r. reflexivity.
  - cbn [for_in]. unfold locks_get at 1. rewrite run_gets. cbn [deref].
    rewrite Hst. cbn [mbind option_bind]. unfold selected. cbn [omap list_omap].
    destruct (locks st !! k) as [l|] eqn:Hl; cbn [mbind option_bind].
    + rewrite (run_normal _ _ _ _ _ (body_run k found w st l Hst Hl Hnow)), IH.
      destruct (decide (P l)); [|reflexivity].
      rewrite <- app_assoc. reflexivity.
    + apply IH.
Qed.
End collect.

(** ** What each method computes *)

Lemma enter {A} this (k : StateRef -> M World A) w :
  (let* state := _getSharedState this in k state) w
  = k (AtWindow (_namespace this)) (ensured this w).
Proof. apply run_normal, getSharedState_run. Qed.

Lemma ensured_Some this w :
  exists st, window (ensured this w) !! _namespace this = Some st
             /\ locks st = locks_of (_namespace this) w
             /\ data st = data_of (_namespace this) w.
Proof.
  unfold ensured, locks_of, data_of. rewrite ensure_lookup.
  destruct (window w !! _namespace this) as [st|].
  - exists st. repeat split.
  - rewrite decide_True by reflexivity. eexists. repeat split.
Qed.

Lemma stored_locks_of this w lockName :
  stored this w lockName = locks_of (_namespace this) w !! lockName.
Proof.
  unfold stored, locks_of. destruct (window w !! _namespace this); cbn; [reflexivity|].
  symmetry. apply lookup_empty.
Qed.

Lemma stale_ensured this w l :
  bool_decide (stale this (ensured this w) l) = bool_decide (stale this w l).
Proof.
  apply bool_decide_ext. unfold stale, ensured. rewrite ensure_clock. reflexivity.
Qed.

Lemma releaseLock_run this lockName w :
  releaseLock this lockName w =
    match stored this w lockName with
    | Some l =>
        if decide (owned_by (_instanceId this) l)
        then (Normal true,
              set_window (alter (with_locks (delete lockName)) (_namespace this))
                (ensured this w))
        else (Normal false, ensured this w)
    | None => (Normal false, ensured this w)
    end.
Proof.
  unfold releaseLock. rewrite enter.
  rewrite (run_normal _ _ _ _ _ (locks_get_run _ _ _)). unfold ensured.
  rewrite stored_ensure. destruct (stored this w lockName) as [l|]; [|reflexivity].
  destruct (decide (owned_by (_instanceId this) l)) as [Ho|Ho]; unfold owned_by in Ho.
  - rewrite decide_True by exact Ho. reflexivity.
  - rewrite decide_False by exact Ho. reflexivity.
Qed.

Lemma hasLock_run this lockName w :
  hasLock this lockName w =
    (Normal match stored this w lockName with
            | Some l => bool_decide (owned_by (_instanceId this) l)
            | None => false
            end, ensured this w).
Proof.
  unfold hasLock. rewrite enter.
  rewrite (run_normal _ _ _ _ _ (locks_get_run _ _ _)). unfold ensured, ret.
  rewrite stored_ensure. reflexivity.
Qed.

Lemma isLockHeld_run this lockName w :
  isLockHeld this lockName w =
    (Normal match stored this w lockName with
            | Some l => match ownerId l with
                        | Some _ => negb (bool_decide (stale this w l))
                        | None => false
                        end
            | None => false
            end, ensured this w).
Proof.
  unfold isLockHeld. rewrite enter.
  rewrite (run_normal _ _ _ _ _ (locks_get_run _ _ _)). unfold ensured.
  rewrite stored_ensure. destruct (stored this w lockName) as [l|]; [|reflexivity].
  destruct (ownerId l); [|reflexivity].
  rewrite (run_normal _ _ _ _ _ (isLockStale_run _ _ _)). unfold ret.
  fold (ensured this w). rewrite stale_ensured. reflexivity.
Qed.

Lemma getLockInfo_run this lockName w :
  getLockInfo this lockName w =
    (Normal match stored this w lockName with
            | Some l => if bool_decide (stale this w l) then None
                        else Some {| ownerId := ownerId l; timestamp := timestamp l;
                                     metadata := metadata l |}
            | None => None
            end, ensured this w).
Proof.
  unfold getLockInfo. rewrite enter.
  rewrite (run_normal _ _ _ _ _ (locks_get_run _ _ _)). unfold ensured.
  rewrite stored_ensure. destruct (stored this w lockName) as [l|]; [|reflexivity].
  rewrite (run_normal _ _ _ _ _ (isLockStale_run _ _ _)).
  fold (ensured this w). rewrite stale_ensured.
  destruct (bool_decide _); reflexivity.
Qed.

Lemma ensured_clock this w : clock (ensured this w) = clock w.
Proof. apply ensure_clock. Qed.

Lemma set_window_alter_insert ns f st w :
  window w !! ns = Some st -> set_window <[ns := f st]> w = set_window (alter f ns) w.
Proof. intros H. symmetry. apply set_window_alter, H. Qed.

Lemma releaseAllLocks_run this w :
  releaseAllLocks this w =
    (Normal (size (filter (fun kl : string * LockState => owned_by (_instanceId this) kl.2)
                     (locks_of (_namespace this) w))),
     set_window
       (alter (with_locks (filter (fun kl : string * LockState =>
                                     ~ owned_by (_instanceId this) kl.2)))
              (_namespace this))
       (ensured this w)).
Proof.
  unfold releaseAllLocks. rewrite enter.
  destruct (ensured_Some this w) as (st & Hst & Hlocks & _).
  unfold locks_keys. rewrite run_gets. cbn [deref]. rewrite Hst. cbn [from_option].
  rewrite <- Hlocks, <- (set_window_alter_insert _ _ _ _ Hst).
  apply for_in_sweep_all with (now := clock (ensured this w));
    [|exact Hst|reflexivity].
  intros k n w' st' l Hst' Hl _.
  unfold locks_get. rewrite run_gets. cbn [deref]. rewrite Hst'. cbn [mbind option_bind].
  rewrite Hl.
  destruct (decide (owned_by (_instanceId this) l)) as [Ho|Ho]; unfold owned_by in Ho.
  - rewrite decide_True by exact Ho. reflexivity.
  - rewrite decide_False by exact Ho. reflexivity.
Qed.

Lemma cleanupStaleLocks_run this w :
  cleanupStaleLocks this w =
    (Normal (size (filter (fun kl : string * LockState => stale this w kl.2)
                     (locks_of (_namespace this) w))),
     set_window
       (alter (with_locks (filter (fun kl : string * LockState => ~ stale this w kl.2)))
              (_namespace this))
       (ensured this w)).
Proof.
  unfold cleanupStaleLocks. rewrite enter.
  destruct (ensured_Some this w) as (st & Hst & Hlocks & _).
  unfold locks_keys. rewrite run_gets. cbn [deref]. rewrite Hst. cbn [from_option].
  rewrite <- Hlocks, <- (set_window_alter_insert _ _ _ _ Hst).
  apply for_in_sweep_all with (now := clock w);
    [|exact Hst|apply ensured_clock].
  intros k n w' st' l Hst' Hl Hnow.
  unfold locks_get. rewrite run_gets. cbn [deref]. rewrite Hst'. cbn [mbind option_bind].
  rewrite Hl. rewrite (run_normal _ _ _ _ _ (isLockStale_run _ _ _)).
  assert (Hiff : stale this w' l <-> stale this w l).
  { unfold stale. rewrite Hnow. reflexivity. }
  rewrite (bool_decide_ext _ _ Hiff).
  destruct (decide (stale this w l)) as [Hs|Hs].
  - rewrite bool_decide_eq_true_2 by exact Hs. reflexivity.
  - rewrite bool_decide_eq_false_2 by exact Hs. reflexivity.
Qed.

Lemma listLocks_run this includeStale w :
  listLocks this includeStale w =
    (Normal (selected (listed this w includeStale)
               (locks_of (_namespace this) w)
               (map_to_list (locks_of (_namespace this) w)).*1),
     ensured this w).
Proof.
  unfold listLocks. rewrite enter.
  destruct (ensured_Some this w) as (st & Hst & Hlocks & _).
  unfold locks_keys. rewrite run_gets. cbn [deref]. rewrite Hst. cbn [from_option].
  rewrite <- Hlocks.
  rewrite for_in_collect
    with (P := listed this w includeStale) (P_dec := listed_dec this w includeStale)
         (now := clock w) (st := st);
    [reflexivity| |exact Hst|apply ensured_clock].
  intros k found w' st' l Hst' Hl Hnow.
  unfold locks_get. rewrite run_gets. cbn [deref]. rewrite Hst'. cbn [mbind option_bind].
  rewrite Hl.
  assert (Hiff : stale this w' l <-> stale this w l).
  { unfold stale. rewrite Hnow. reflexivity. }
  destruct includeStale.
  - rewrite run_ret. rewrite decide_True by (left; reflexivity). reflexivity.
  - rewrite run_assoc, (run_normal _ _ _ _ _ (isLockStale_run _ _ _)), run_ret.
    rewrite (bool_decide_ext _ _ Hiff).
    destruct (decide (stale this w l)) as [Hs|Hs].
    + rewrite bool_decide_eq_true_2 by exact Hs.
      rewrite decide_False by (intros [?|?]; [discriminate | contradiction]). reflexivity.
    + rewrite bool_decide_eq_false_2 by exact Hs.
      rewrite decide_True by (right; exact Hs). reflexivity.
Qed.

Lemma clearSharedData_run this w :
  clearSharedData this w =
    (Normal tt,
     set_window (alter (with_data (fun _ => ∅)) (_namespace this)) (ensured this w)).
Proof. unfold clearSharedData. rewrite enter. reflexivity. Qed.

Lemma setSharedData_run this key value w :
  setSharedData this key value w =
    (Normal tt,
     set_window (alter (with_data <[key := value]>) (_namespace this)) (ensured this w)).
Proof. unfold setSharedData. rewrite enter. reflexivity. Qed.

Lemma data_ensured this w ns : data_of ns (ensured this w) = data_of ns w.
Proof.
  unfold data_of, ensured. rewrite ensure_lookup.
  destruct (window w !! ns); [reflexivity|]. case_decide; reflexivity.
Qed.

Lemma locks_ensured this w ns : locks_of ns (ensured this w) = locks_of ns w.
Proof.
  unfold locks_of, ensured. rewrite ensure_lookup.
  destruct (window w !! ns); [reflexivity|]. case_decide; reflexivity.
Qed.

Lemma data_get_run ns key w :
  data_get (AtWindow ns) key w = (Normal (default AUndefined (data_of ns w !! key)), w).
Proof.
  unfold data_get, gets, data_of. cbn [deref].
  destruct (window w !! ns); cbn; [reflexivity|]. rewrite lookup_empty. reflexivity.
Qed.

Lemma getSharedData_run this key defaultValue w :
  getSharedData this key defaultValue w =
    (Normal (let v := default AUndefined (data_of (_namespace this) w !! key) in
             if is_defined v then v else defaultValue),
     ensured this w).
Proof.
  unfold getSharedData. rewrite enter.
  rewrite (run_normal _ _ _ _ _ (data_get_run _ _ _)), data_ensured. reflexivity.
Qed.

Lemma deleteSharedData_run this key w :
  deleteSharedData this key w =
    if bool_decide (is_Some (data_of (_namespace this) w !! key))
    then (Normal true,
          set_window (alter (with_data (delete key)) (_namespace this)) (ensured this w))
    else (Normal false, ensured this w).
Proof.
  unfold deleteSharedData. rewrite enter. unfold data_has. rewrite run_gets.
  assert (Heq : (deref (AtWindow (_namespace this)) (ensured this w)
                   ≫= fun st => data st !! key)
                = data_of (_namespace this) w !! key).
  { rewrite <- (data_ensured this w). unfold data_of. cbn [deref].
    destruct (window (ensured this w) !! _namespace this); cbn; [reflexivity|].
    rewrite lookup_empty. reflexivity. }
  rewrite Heq. destruct (bool_decide _); reflexivity.
Qed.

(** ** acquireLock: the two outcomes *)

Lemma truthy_owner_true o :
  truthy_owner o = true <-> exists s, o = Some s /\ s <> "".
Proof.
  unfold truthy_owner. destruct o as [s|].
  - rewrite bool_decide_eq_true. split.
    + intros Hs. exists s. split; [reflexivity | exact Hs].
    + intros (s' & [= <-] & Hs). exact Hs.
  - split; [discriminate | intros (s & [=] & _)].
Qed.

Lemma acquireLock_cases this lockName md w :
  (exists l, stored this w lockName = Some l
             /\ truthy_owner (ownerId l) = true /\ ~ stale this w l
             /\ acquireLock this lockName md w =
                  (Normal {| success := false; currentOwnerId := Some (ownerId l);
                             wasStale := Some false |}, w))
  \/ (exists stale_before,
        acquireLock this lockName md w =
          (Normal {| success := true; currentOwnerId := None;
                     wasStale := Some stale_before |},
           taken this lockName md w)).
Proof.
  destruct (stored this w lockName) as [l|] eqn:Hs.
  - destruct (truthy_owner (ownerId l)) eqn:Ho.
    + destruct (decide (stale this w l)) as [Hst|Hst].
      * right. eexists. rewrite acquireLock_free; [reflexivity|].
        rewrite Hs. right. exact Hst.
      * left. exists l. repeat split; try assumption.
        apply acquireLock_held; assumption.
    + right. eexists. rewrite acquireLock_free; [reflexivity|].
      rewrite Hs. left. exact Ho.
  - right. eexists. rewrite acquireLock_free; [reflexivity|].
    rewrite Hs. exact I.
Qed.

(** ** The constructor *)

Lemma new_SharedStateManager_run options random w :
  let this := {| _namespace := or_string (namespace options) DEFAULT_NAMESPACE;
                 _version := or_string (version_ options) "1.0.0";
                 _staleLockTimeout := or_number (staleLockTimeout options) 60000;
                 _instanceId := "instance_" +:+ pretty (clock w) +:+ "_" +:+ random |} in
  new_SharedStateManager options random w = (Normal this, ensured this w).
Proof.
  cbv zeta. unfold new_SharedStateManager, _generateInstanceId, Date_now.
  rewrite run_assoc, run_gets, run_ret.
  unfold bind, ensured, exec.
  destruct (_ensureSharedState _ w) as [[[]|e] w'] eqn:He; [reflexivity|].
  unfold _ensureSharedState in He. rewrite run_gets in He.
  destruct (window w !! _); discriminate.
Qed.

Lemma constructed_namespace options random w this :
  result (new_SharedStateManager options random) w = Normal this ->
  getNamespace this = or_string (namespace options) DEFAULT_NAMESPACE.
Proof.
  unfold result. rewrite new_SharedStateManager_run. cbn. intros [= <-]. reflexivity.
Qed.

Lemma constructed_initialised options random w :
  forall this, result (new_SharedStateManager options random) w = Normal this ->
  initialised this (exec (new_SharedStateManager options random) w).
Proof.
  intros this. unfold result, exec. rewrite new_SharedStateManager_run. cbn.
  intros [= <-]. destruct (ensured_Some
    {| _namespace := or_string (namespace options) DEFAULT_NAMESPACE;
       _version := or_string (version_ options) "1.0.0";
       _staleLockTimeout := or_number (staleLockTimeout options) 60000;
       _instanceId := "instance_" +:+ pretty (clock w) +:+ "_" +:+ random |} w)
    as (st & Hst & _).
  exists st. exact Hst.
Qed.

Lemma constructed_owner_truthy this :
  constructed this -> truthy_owner (Some (_instanceId this)) = true.
Proof.
  intros (options & random & w & Hnew). unfold result in Hnew.
  rewrite new_SharedStateManager_run in Hnew. cbn in Hnew. injection Hnew as <-.
  cbn. apply bool_decide_eq_true. discriminate.
Qed.

(** ** The scenario, evaluated *)

Example instance1_constructed :
  result (new_SharedStateManager ns1_options "abc") blank_page = Normal instance1.
Proof. vm_compute. reflexivity. Qed.

Example instance2_constructed :
  result (new_SharedStateManager ns1_options "xyz") blank_page = Normal instance2.
Proof. vm_compute. reflexivity. Qed.

Example page_held_x : stored instance1 page_held "x" = Some lock_x.
Proof. vm_compute. reflexivity. Qed.

Example end_to_end :
  result
    (let* r1 := acquireLock instance1 "x" None in
     let* r2 := acquireLock instance2 "x" None in
     modify (advance 150) ;;
     let* r3 := acquireLock instance2 "x" None in
     let* released := releaseLock instance1 "x" in
     ret (r1, r2, r3, released)) page_ready
  = Normal ({| success := true; currentOwnerId := None; wasStale := Some false |},
            {| success := false; currentOwnerId := Some (Some "instance_1000_abc");
               wasStale := Some false |},
            {| success := true; currentOwnerId := None; wasStale := Some true |},
            false).
Proof. vm_compute. reflexivity. Qed.

(** ** Queries on a stale lock *)

(** C1, as the specification words it, fails: [hasLock] does not look at the
    timestamp, so the recorded owner of a stale lock still gets [true]. *)
Lemma stale_lock_hasLock_counterexample :
  ~ (forall this w lockName l,
       stored this w lockName = Some l ->
       stale this w l ->
       result (hasLock this lockName) w = Normal false
       /\ result (isLockHeld this lockName) w = Normal false
       /\ result (getLockInfo this lockName) w = Normal None).
Proof.
  intros Hclaim.
  destruct (Hclaim instance1 page_stale "x" lock_x) as (Hhas & _).
  - vm_compute. reflexivity.
  - vm_compute. reflexivity.
  - vm_compute in Hhas. discriminate Hhas.
Qed.

(** C1 (amended): on a stored lock whose age exceeds [staleLockTimeout],
    [isLockHeld] returns false and [getLockInfo] returns null; [hasLock]
    ignores the age and returns whether the recorded [ownerId] is this
    instance's id.  None of the three changes the state. *)
Theorem stale_lock_queries this w lockName l :
  stored this w lockName = Some l ->
  stale this w l ->
  isLockHeld this lockName w = (Normal false, w)
  /\ getLockInfo this lockName w = (Normal None, w)
  /\ hasLock this lockName w = (Normal (bool_decide (ownerId l = Some (_instanceId this))), w).
Proof.
  intros Hs Hst.
  assert (Hinit : ensured this w = w).
  { apply ensure_initialised. destruct (stored_Some _ _ _ _ Hs) as (st & Hw & _).
    exists st. exact Hw. }
  rewrite isLockHeld_run, getLockInfo_run, hasLock_run, Hs, Hinit.
  rewrite bool_decide_eq_true_2 by exact Hst.
  repeat split. destruct (ownerId l); reflexivity.
Qed.

Lemma stale_lock_queries_witness :
  isLockHeld instance1 "x" page_stale = (Normal false, page_stale)
  /\ getLockInfo instance1 "x" page_stale = (Normal None, page_stale)
  /\ hasLock instance1 "x" page_stale = (Normal true, page_stale).
Proof.
  apply (stale_lock_queries instance1 page_stale "x" lock_x).
  - vm_compute. reflexivity.
  - vm_compute. reflexivity.
Defined.

(** ** acquireLock *)

(** X25: on a pristine [locks] object and for a name other than
    ["__proto__"], when no lock is stored under the name, or the stored one
    is stale, [acquireLock] stores a lock with this instance's id, the
    current time and the metadata argument, and returns success with
    [wasStale] true exactly when there was a (stale) lock to replace.
    Nothing else in the namespace changes. *)
Theorem acquireLock_takes_free_lock this w lockName md :
  pristine (locks_of (_namespace this) w) ->
  lockName <> "__proto__" ->
  stored this w lockName = None
  \/ (exists l, stored this w lockName = Some l /\ stale this w l) ->
  result (acquireLock this lockName md) w =
    Normal {| success := true; currentOwnerId := None;
              wasStale := Some (bool_decide (is_Some (stored this w lockName))) |}
  /\ stored this (exec (acquireLock this lockName md) w) lockName =
       Some {| ownerId := Some (_instanceId this); timestamp := clock w; metadata := md |}
  /\ (forall other, other <> lockName ->
        stored this (exec (acquireLock this lockName md) w) other = stored this w other)
  /\ data_of (_namespace this) (exec (acquireLock this lockName md) w)
     = data_of (_namespace this) w.
Proof.
  intros _ _ Hfree. unfold result, exec. rewrite acquireLock_free.
  - cbn [fst snd]. split; [|split; [|split]].
    + destruct Hfree as [Hs|(l & Hs & Hst)]; rewrite Hs.
      * reflexivity.
      * rewrite bool_decide_eq_true_2 by exact Hst.
        rewrite bool_decide_eq_true_2 by (exists l; reflexivity). reflexivity.
    + apply stored_taken.
    + intros other Hne. apply stored_taken_ne, Hne.
    + apply data_of_taken.
  - destruct Hfree as [Hs|(l & Hs & Hst)]; rewrite Hs; [exact I | right; exact Hst].
Qed.

Lemma acquireLock_takes_free_lock_witness :
  result (acquireLock instance2 "x" None) page_stale =
    Normal {| success := true; currentOwnerId := None; wasStale := Some true |}
  /\ result (acquireLock instance1 "x" None) page_ready =
    Normal {| success := true; currentOwnerId := None; wasStale := Some false |}.
Proof.
  split.
  - apply (acquireLock_takes_free_lock instance2 page_stale "x" None).
    + vm_compute. reflexivity.
    + discriminate.
    + right. exists lock_x. split; vm_compute; reflexivity.
  - apply (acquireLock_takes_free_lock instance1 page_ready "x" None).
    + vm_compute. reflexivity.
    + discriminate.
    + left. vm_compute. reflexivity.
Defined.

(** C3: on a stored lock that has an owner and is not stale, [acquireLock]
    completes normally with [success: false] and the stored owner as
    [currentOwnerId], and the whole shared state is as before. *)
Theorem acquireLock_contention this w lockName md l owner :
  stored this w lockName = Some l ->
  ownerId l = Some owner ->
  owner <> "" ->
  ~ stale this w l ->
  acquireLock this lockName md w =
    (Normal {| success := false; currentOwnerId := Some (Some owner);
               wasStale := Some false |}, w).
Proof.
  intros Hs Ho Hne Hst. rewrite <- Ho.
  apply acquireLock_held; [exact Hs | | exact Hst].
  apply truthy_owner_true. exists owner. split; assumption.
Qed.

Lemma acquireLock_contention_witness :
  acquireLock instance2 "x" None page_held =
    (Normal {| success := false; currentOwnerId := Some (Some "instance_1000_abc");
               wasStale := Some false |}, page_held).
Proof.
  apply (acquireLock_contention instance2 page_held "x" None lock_x "instance_1000_abc").
  - vm_compute. reflexivity.
  - reflexivity.
  - discriminate.
  - vm_compute. discriminate.
Defined.

(** ** Releasing *)

Lemma locks_of_lookup_alter ns ns' f w :
  locks_of ns' (set_window (alter (with_locks f) ns) w)
  = if decide (ns = ns') then
      match window w !! ns with
      | Some st => f (locks st)
      | None => ∅
      end
    else locks_of ns' w.
Proof.
  unfold locks_of. cbn [window set_window]. rewrite lookup_alter.
  case_decide as Hd; [subst ns'|reflexivity].
  destruct (window w !! ns); reflexivity.
Qed.

Lemma data_of_alter_locks ns ns' f w :
  data_of ns' (set_window (alter (with_locks f) ns) w) = data_of ns' w.
Proof.
  unfold data_of. cbn [window set_window]. rewrite lookup_alter.
  case_decide as Hd; [subst ns'|reflexivity].
  destruct (window w !! ns); reflexivity.
Qed.

Lemma locks_of_alter_locks this f w :
  locks_of (_namespace this)
    (set_window (alter (with_locks f) (_namespace this)) (ensured this w))
  = f (locks_of (_namespace this) w).
Proof.
  rewrite locks_of_lookup_alter, decide_True by reflexivity.
  destruct (ensured_Some this w) as (st & -> & -> & _). reflexivity.
Qed.

Lemma locks_of_alter_locks_ne this f w ns :
  ns <> _namespace this ->
  locks_of ns (set_window (alter (with_locks f) (_namespace this)) (ensured this w))
  = locks_of ns w.
Proof.
  intros Hne. rewrite locks_of_lookup_alter, decide_False by congruence.
  apply locks_ensured.
Qed.

(** X26: on a pristine [locks] object, and for every lock name,
    [releaseLock] deletes the stored lock and returns true when its
    [ownerId] is this instance's id; when no lock is stored under the name, or
    its owner is another id, it returns false and no lock or datum of any
    namespace changes (and nothing at all once the namespace exists). *)
Theorem releaseLock_owner_only this w lockName :
  pristine (locks_of (_namespace this) w) ->
  (forall l, stored this w lockName = Some l -> ownerId l = Some (_instanceId this) ->
     result (releaseLock this lockName) w = Normal true
     /\ locks_of (_namespace this) (exec (releaseLock this lockName) w)
        = delete lockName (locks_of (_namespace this) w)
     /\ data_of (_namespace this) (exec (releaseLock this lockName) w)
        = data_of (_namespace this) w)
  /\ ((forall l, stored this w lockName = Some l -> ownerId l <> Some (_instanceId this)) ->
     result (releaseLock this lockName) w = Normal false
     /\ (forall ns, locks_of ns (exec (releaseLock this lockName) w) = locks_of ns w
                    /\ data_of ns (exec (releaseLock this lockName) w) = data_of ns w)
     /\ (initialised this w -> exec (releaseLock this lockName) w = w)).
Proof.
  intros _. unfold result, exec. rewrite releaseLock_run. split.
  - intros l Hs Ho. rewrite Hs.
    rewrite (decide_True (P := owned_by (_instanceId this) l)) by exact Ho.
    cbn [fst snd]. split; [reflexivity|]. split.
    + apply locks_of_alter_locks.
    + rewrite data_of_alter_locks. apply data_ensured.
  - intros Hother.
    assert (Hrun : match stored this w lockName with
                   | Some l =>
                       if decide (owned_by (_instanceId this) l)
                       then (Normal true,
                             set_window
                               (alter (with_locks (delete lockName)) (_namespace this))
                               (ensured this w))
                       else (Normal false, ensured this w)
                   | None => (Normal false, ensured this w)
                   end = (Normal false, ensured this w)).
    { destruct (stored this w lockName) as [l|]; [|reflexivity].
      rewrite (decide_False (P := owned_by (_instanceId this) l)); [reflexivity|].
      apply Hother. reflexivity. }
    rewrite Hrun. cbn [fst snd]. split; [reflexivity|]. split.
    + intros ns. split; [apply locks_ensured | apply data_ensured].
    + intros Hinit. apply ensure_initialised, Hinit.
Qed.

Lemma releaseLock_owner_only_witness :
  (result (releaseLock instance1 "x") page_held = Normal true
   /\ locks_of "ns1" (exec (releaseLock instance1 "x") page_held)
      = delete "x" (locks_of "ns1" page_held))
  /\ (result (releaseLock instance2 "x") page_held = Normal false
      /\ exec (releaseLock instance2 "x") page_held = page_held).
Proof.
  split.
  - destruct (releaseLock_owner_only instance1 page_held "x") as [Howner _].
    { vm_compute. reflexivity. }
    destruct (Howner lock_x) as (Hr & Hl & _).
    + vm_compute. reflexivity.
    + reflexivity.
    + split; [exact Hr | exact Hl].
  - destruct (releaseLock_owner_only instance2 page_held "x") as [_ Hother].
    { vm_compute. reflexivity. }
    destruct Hother as (Hr & _ & Hsame).
    + intros l Hl. vm_compute in Hl. injection Hl as <-. discriminate.
    + split; [exact Hr|]. apply Hsame. vm_compute. eexists. reflexivity.
Defined.

(** X27: on a pristine [locks] object, [releaseAllLocks] removes exactly
    the locks whose [ownerId] is the calling instance's id and returns how
    many they were; every other lock, the data, and every other namespace are
    as before. *)
Theorem releaseAllLocks_exact this w :
  pristine (locks_of (_namespace this) w) ->
  result (releaseAllLocks this) w =
    Normal (size (filter (fun kl : string * LockState =>
                            ownerId kl.2 = Some (_instanceId this))
                    (locks_of (_namespace this) w)))
  /\ locks_of (_namespace this) (exec (releaseAllLocks this) w)
     = filter (fun kl : string * LockState => ownerId kl.2 <> Some (_instanceId this))
         (locks_of (_namespace this) w)
  /\ (forall lockName l,
        stored this w lockName = Some l ->
        stored this (exec (releaseAllLocks this) w) lockName
        = if decide (ownerId l = Some (_instanceId this)) then None else Some l)
  /\ (forall ns, data_of ns (exec (releaseAllLocks this) w) = data_of ns w)
  /\ (forall ns, ns <> _namespace this ->
        locks_of ns (exec (releaseAllLocks this) w) = locks_of ns w).
Proof.
  intros _. unfold result, exec. rewrite releaseAllLocks_run. cbn [fst snd].
  split; [reflexivity|].
  assert (Hlocks : locks_of (_namespace this)
            (set_window
               (alter (with_locks (filter (fun kl : string * LockState =>
                                             ~ owned_by (_instanceId this) kl.2)))
                  (_namespace this)) (ensured this w))
          = filter (fun kl : string * LockState => ownerId kl.2 <> Some (_instanceId this))
              (locks_of (_namespace this) w)).
  { apply locks_of_alter_locks. }
  split; [exact Hlocks|]. split; [|split].
  - intros lockName l Hs. rewrite stored_locks_of, Hlocks.
    rewrite stored_locks_of in Hs. rewrite map_lookup_filter, Hs. cbn.
    destruct (decide (ownerId l = Some (_instanceId this))) as [Ho|Ho].
    + rewrite option_guard_False by (intros Hn; apply Hn, Ho). reflexivity.
    + rewrite option_guard_True by exact Ho. reflexivity.
  - intros ns. rewrite data_of_alter_locks. apply data_ensured.
  - intros ns Hne. apply locks_of_alter_locks_ne, Hne.
Qed.

(** X28: on a pristine [locks] object, [cleanupStaleLocks] removes exactly
    the locks whose age exceeds the caller's [staleLockTimeout], whoever owns
    them, and returns how many they were; every other lock, the data, and
    every other namespace are as before. *)
Theorem cleanupStaleLocks_exact this w :
  pristine (locks_of (_namespace this) w) ->
  result (cleanupStaleLocks this) w =
    Normal (size (filter (fun kl : string * LockState => stale this w kl.2)
                    (locks_of (_namespace this) w)))
  /\ locks_of (_namespace this) (exec (cleanupStaleLocks this) w)
     = filter (fun kl : string * LockState => ~ stale this w kl.2)
         (locks_of (_namespace this) w)
  /\ (forall lockName l,
        stored this w lockName = Some l ->
        stored this (exec (cleanupStaleLocks this) w) lockName
        = if decide (stale this w l) then None else Some l)
  /\ (forall ns, data_of ns (exec (cleanupStaleLocks this) w) = data_of ns w)
  /\ (forall ns, ns <> _namespace this ->
        locks_of ns (exec (cleanupStaleLocks this) w) = locks_of ns w).
Proof.
  intros _. unfold result, exec. rewrite cleanupStaleLocks_run. cbn [fst snd].
  split; [reflexivity|].
  assert (Hlocks : locks_of (_namespace this)
            (set_window
               (alter (with_locks (filter (fun kl : string * LockState =>
                                             ~ stale this w kl.2)))
                  (_namespace this)) (ensured this w))
          = filter (fun kl : string * LockState => ~ stale this w kl.2)
              (locks_of (_namespace this) w)).
  { apply locks_of_alter_locks. }
  split; [exact Hlocks|]. split; [|split].
  - intros lockName l Hs. rewrite stored_locks_of, Hlocks.
    rewrite stored_locks_of in Hs. rewrite map_lookup_filter, Hs. cbn.
    destruct (decide (stale this w l)) as [Ho|Ho].
    + rewrite option_guard_False by (intros Hn; apply Hn, Ho). reflexivity.
    + rewrite option_guard_True by exact Ho. reflexivity.
  - intros ns. rewrite data_of_alter_locks. apply data_ensured.
  - intros ns Hne. apply locks_of_alter_locks_ne, Hne.
Qed.

Lemma releaseAllLocks_exact_witness :
  result (releaseAllLocks instance1) page_mixed = Normal 2%nat
  /\ stored instance1 (exec (releaseAllLocks instance1) page_mixed) "x" = None
  /\ stored instance1 (exec (releaseAllLocks instance1) page_mixed) "y" = Some lock_y.
Proof.
  destruct (releaseAllLocks_exact instance1 page_mixed) as (Hr & _ & Hp & _).
  { vm_compute. reflexivity. }
  split; [|split].
  - rewrite Hr. vm_compute. reflexivity.
  - rewrite (Hp "x" lock_x); vm_compute; reflexivity.
  - rewrite (Hp "y" lock_y); vm_compute; reflexivity.
Defined.

(** Staleness is the caller's judgement: 150 ms after ["x"] was taken, the
    instance with the 100 ms timeout removes it and the one with the
    1000 ms timeout removes nothing. *)
Example cleanup_uses_callers_timeout :
  result (cleanupStaleLocks instance1) page_stale = Normal 1%nat
  /\ result (cleanupStaleLocks patient) page_stale = Normal 0%nat.
Proof. vm_compute. split; reflexivity. Qed.

Lemma cleanupStaleLocks_exact_witness :
  result (cleanupStaleLocks instance2) page_mixed = Normal 1%nat
  /\ stored instance2 (exec (cleanupStaleLocks instance2) page_mixed) "x" = None
  /\ stored instance2 (exec (cleanupStaleLocks instance2) page_mixed) "z" = Some lock_z.
Proof.
  destruct (cleanupStaleLocks_exact instance2 page_mixed) as (Hr & _ & Hp & _).
  { vm_compute. reflexivity. }
  split; [|split].
  - rewrite Hr. vm_compute. reflexivity.
  - rewrite (Hp "x" lock_x); vm_compute; reflexivity.
  - rewrite (Hp "z" lock_z); vm_compute; reflexivity.
Defined.

(** ** What a call can see, and what it can touch *)

Lemma selected_ext (P Q : LockState -> Prop)
    {P_dec : forall l, Decision (P l)} {Q_dec : forall l, Decision (Q l)}
    (m : gmap string LockState) names :
  (forall l, P l <-> Q l) -> selected P m names = selected Q m names.
Proof.
  intros HPQ. unfold selected. induction names as [|k rest IH]; [reflexivity|].
  cbn [omap list_omap]. rewrite IH.
  destruct (m !! k) as [l|]; cbn [mbind option_bind]; [|reflexivity].
  destruct (decide (P l)) as [HP|HP], (decide (Q l)) as [HQ|HQ]; try reflexivity.
  - exfalso. apply HQ, HPQ, HP.
  - exfalso. apply HP, HPQ, HQ.
Qed.

Lemma stale_same_clock this w1 w2 l :
  clock w1 = clock w2 -> stale this w1 l <-> stale this w2 l.
Proof. unfold stale. intros ->. reflexivity. Qed.

Lemma listLocks_local this includeStale w1 w2 :
  locks_of (_namespace this) w1 = locks_of (_namespace this) w2 ->
  clock w1 = clock w2 ->
  result (listLocks this includeStale) w1 = result (listLocks this includeStale) w2.
Proof.
  intros Hlocks Hclock. unfold result. rewrite !listLocks_run. cbn [fst].
  rewrite Hlocks. f_equal. apply selected_ext. intros l. unfold listed.
  rewrite (stale_same_clock this w1 w2 l Hclock). reflexivity.
Qed.

Lemma locks_of_alter_data ns ns' f w :
  locks_of ns' (set_window (alter (with_data f) ns) w) = locks_of ns' w.
Proof.
  unfold locks_of. cbn [window set_window]. rewrite lookup_alter.
  case_decide as Hd; [subst ns'|reflexivity].
  destruct (window w !! ns); reflexivity.
Qed.

Lemma data_of_alter_data this f w :
  data_of (_namespace this)
    (set_window (alter (with_data f) (_namespace this)) (ensured this w))
  = f (data_of (_namespace this) w).
Proof.
  unfold data_of at 1. cbn [window set_window]. rewrite lookup_alter_eq.
  destruct (ensured_Some this w) as (st & Hst & _ & Hdata).
  rewrite Hst. cbn. rewrite Hdata. reflexivity.
Qed.

Lemma data_of_alter_data_ne ns ns' f w :
  ns' <> ns -> data_of ns' (set_window (alter (with_data f) ns) w) = data_of ns' w.
Proof.
  intros Hne. unfold data_of. cbn [window set_window].
  rewrite lookup_alter_ne by congruence. reflexivity.
Qed.

(** C7: [clearSharedData] leaves the namespace's data empty and every
    [locks] mapping as it was, so [listLocks] returns after it what it
    returned before it, for either value of [includeStale] and through
    whichever manager it is called. *)
Theorem clearSharedData_preserves_locks this w :
  result (clearSharedData this) w = Normal tt
  /\ data_of (_namespace this) (exec (clearSharedData this) w) = ∅
  /\ (forall ns, locks_of ns (exec (clearSharedData this) w) = locks_of ns w)
  /\ (forall observer includeStale,
        result (listLocks observer includeStale) (exec (clearSharedData this) w)
        = result (listLocks observer includeStale) w).
Proof.
  unfold result at 1, exec. rewrite clearSharedData_run. cbn [fst snd].
  assert (Hlocks : forall ns,
            locks_of ns
              (set_window (alter (with_data (fun _ => ∅)) (_namespace this))
                 (ensured this w)) = locks_of ns w).
  { intros ns. rewrite locks_of_alter_data. apply locks_ensured. }
  split; [reflexivity|]. split; [|split].
  - apply (data_of_alter_data this (fun _ => ∅)).
  - exact Hlocks.
  - intros observer includeStale. apply listLocks_local; [apply Hlocks|].
    cbn [clock set_window]. apply ensured_clock.
Qed.

Lemma clearSharedData_preserves_locks_witness :
  data_of "ns1" (exec (clearSharedData instance2) page_mixed) = ∅
  /\ result (listLocks instance1 true) (exec (clearSharedData instance2) page_mixed)
     = result (listLocks instance1 true) page_mixed
  /\ result (listLocks instance1 false) (exec (clearSharedData instance2) page_mixed)
     = result (listLocks instance1 false) page_mixed.
Proof.
  destruct (clearSharedData_preserves_locks instance2 page_mixed) as (_ & Hd & _ & Hl).
  split; [exact Hd|]. split; apply Hl.
Defined.






Lemma reply_run {A} (f : A -> Reply) (m : M World A) w :
  reply f m w =
    match m w with
    | (Normal a, w') => (Normal (f a), w')
    | (Throw e, w') => (Throw e, w')
    end.
Proof. unfold reply, bind. destruct (m w) as [[a|e] w']; reflexivity. Qed.

Lemma exec_reply {A} (f : A -> Reply) (m : M World A) w : exec (reply f m) w = exec m w.
Proof. unfold exec. rewrite reply_run. destruct (m w) as [[a|e] w']; reflexivity. Qed.



Lemma acquireLock_result this lockName md w :
  result (acquireLock this lockName md) w =
    Normal match stored this w lockName with
           | Some l =>
               if truthy_owner (ownerId l) && negb (bool_decide (stale this w l))
               then {| success := false; currentOwnerId := Some (ownerId l);
                       wasStale := Some false |}
               else {| success := true; currentOwnerId := None;
                       wasStale := Some (bool_decide (stale this w l)) |}
           | None => {| success := true; currentOwnerId := None; wasStale := Some false |}
           end.
Proof.
  unfold result. destruct (stored this w lockName) as [l|] eqn:Hs.
  - destruct (truthy_owner (ownerId l)) eqn:Ho; cbn [andb].
    + destruct (decide (stale this w l)) as [Hst|Hst].
      * rewrite bool_decide_eq_true_2 by exact Hst. cbn [negb].
        rewrite acquireLock_free by (rewrite Hs; right; exact Hst).
        rewrite Hs, bool_decide_eq_true_2 by exact Hst. reflexivity.
      * rewrite bool_decide_eq_false_2 by exact Hst. cbn [negb].
        rewrite (acquireLock_held this w lockName md l Hs Ho Hst). reflexivity.
    + rewrite acquireLock_free by (rewrite Hs; left; exact Ho).
      rewrite Hs. reflexivity.
  - rewrite acquireLock_free by (rewrite Hs; exact I). rewrite Hs. reflexivity.
Qed.


(** ** Namespace isolation *)




(** ** The selection-mode guard *)

Lemma lift_run {A} (m : M World A) (s : SelectionMode.Session) r w :
  m (SelectionMode.page s) = (r, w) ->
  SelectionMode.lift m s =
    (r, {| SelectionMode.manager := SelectionMode.manager s;
           SelectionMode.page := w;
           SelectionMode.trace := SelectionMode.trace s |}).
Proof. unfold SelectionMode.lift. intros ->. reflexivity. Qed.

(** C9: while [isInSelectionMode()] is true, [enterSelectionMode] throws
    the already-in-selection-mode error before it touches the lock, and
    nothing changes; on a manager that is not active, when acquiring the
    ['selectionMode'] lock fails it throws too, and the manager stays
    inactive: manager, page and collaborators are as before. *)
Theorem enterSelectionMode_guards (s : SelectionMode.Session) sdk options :
  (result SelectionMode.isInSelectionMode s = Normal true ->
     SelectionMode.enterSelectionMode sdk options s
     = (Throw (Error SelectionMode.ALREADY_IN_SELECTION_MODE), s))
  /\ (result SelectionMode.isInSelectionMode s = Normal false ->
      forall r,
        result (acquireLock (SelectionMode._sharedStateManager (SelectionMode.manager s))
                  "selectionMode" None) (SelectionMode.page s) = Normal r ->
        success r = false ->
        SelectionMode.enterSelectionMode sdk options s
        = (Throw (Error SelectionMode.ANOTHER_INSTANCE_ACTIVE), s)
        /\ result SelectionMode.isInSelectionMode s = Normal false).
Proof.
  unfold result, SelectionMode.isInSelectionMode, SelectionMode.field, gets. cbn [fst].
  split.
  - intros [= Hactive]. unfold SelectionMode.enterSelectionMode, SelectionMode.field.
    rewrite run_gets, Hactive. reflexivity.
  - intros [= Hactive] r Hr Hfail. split; [|rewrite Hactive; reflexivity].
    unfold SelectionMode.enterSelectionMode, SelectionMode.field.
    rewrite run_gets, Hactive, run_gets.
    destruct (acquireLock_cases
                (SelectionMode._sharedStateManager (SelectionMode.manager s))
                "selectionMode" None (SelectionMode.page s))
      as [(l & _ & _ & _ & Hrun)|(b & Hrun)].
    + rewrite (run_normal _ _ _ _ _ (lift_run _ _ _ _ Hrun)). cbn [success negb].
      unfold throw. destruct s; reflexivity.
    + rewrite Hrun in Hr. injection Hr as <-. discriminate Hfail.
Qed.

Example selection_manager_constructed :
  result (SelectionMode.new_SelectionModeManager (Some (SelectionMode.Sidebar 0)) "abc")
    blank_page
  = Normal (selection_manager "abc").
Proof. vm_compute. reflexivity. Qed.

Example session_active_entered :
  result SelectionMode.isInSelectionMode session_active = Normal true
  /\ SelectionMode.trace session_active
     = [SelectionMode.Sidebar_preventTabSwitching; SelectionMode.OpenLayers_activate;
        SelectionMode.Interceptor_enable]
  /\ result (hasLock (selection_shared "abc") "selectionMode")
       (SelectionMode.page session_active) = Normal true.
Proof. vm_compute. repeat split. Qed.

Example session_exit_reenter :
  result (SelectionMode.exit ;;
          SelectionMode.enterSelectionMode (SelectionMode.Sdk 0) segments_only ;;
          SelectionMode.isInSelectionMode) session_active
  = Normal true.
Proof. vm_compute. reflexivity. Qed.

Lemma enterSelectionMode_guards_witness :
  SelectionMode.enterSelectionMode (SelectionMode.Sdk 1) segments_only session_active
  = (Throw (Error SelectionMode.ALREADY_IN_SELECTION_MODE), session_active)
  /\ SelectionMode.enterSelectionMode (SelectionMode.Sdk 1) segments_only session_other
     = (Throw (Error SelectionMode.ANOTHER_INSTANCE_ACTIVE), session_other).
Proof.
  split.
  - apply (enterSelectionMode_guards session_active (SelectionMode.Sdk 1) segments_only).
    vm_compute. reflexivity.
  - apply (enterSelectionMode_guards session_other (SelectionMode.Sdk 1) segments_only)
      with (r := refused "instance_1000_abc").
    + vm_compute. reflexivity.
    + vm_compute. reflexivity.
    + reflexivity.
Defined.

(** ** The owner's own attempts *)

Lemma advance_advance d d' w : advance d (advance d' w) = advance (d' + d) w.
Proof. unfold advance. cbn. f_equal. lia. Qed.

Lemma stored_advance this d w lockName :
  stored this (advance d w) lockName = stored this w lockName.
Proof. reflexivity. Qed.

Lemma total_nonneg delays : Forall (fun d => 0 <= d) delays -> 0 <= total delays.
Proof.
  unfold total. induction 1 as [|d rest Hd _ IH]; cbn [foldr]; lia.
Qed.

Lemma retries_refused this lockName md l delays :
  truthy_owner (ownerId l) = true ->
  Forall (fun d => 0 <= d) delays ->
  forall w,
    stored this w lockName = Some l ->
    clock w + total delays - timestamp l <= _staleLockTimeout this ->
    retries this lockName md delays w =
      (Normal (replicate (length delays)
                 {| success := false; currentOwnerId := Some (ownerId l);
                    wasStale := Some false |}),
       advance (total delays) w).
Proof.
  intros Ho. induction 1 as [|d rest Hd Hrest IH]; intros w Hs Hage.
  - cbn. unfold ret, advance. destruct w as [win clk]. cbn. f_equal. f_equal. lia.
  - cbn [retries total foldr length replicate] in *. fold (total rest) in *.
    pose proof (total_nonneg rest Hrest) as Hnn.
    rewrite run_modify.
    assert (Hfresh : ~ stale this (advance d w) l).
    { unfold stale, advance. cbn. lia. }
    rewrite (run_normal _ _ _ _ _
               (acquireLock_held this (advance d w) lockName md l Hs Ho Hfresh)).
    rewrite (run_normal _ _ _ _ _ (IH (advance d w) Hs ltac:(cbn; lia))).
    unfold ret. rewrite advance_advance. reflexivity.
Qed.

(** C10: a manager that owns a stored lock that is not stale gets
    [success: false] with its own id as [currentOwnerId] from its own
    [acquireLock], and the state, timestamp included, is as before.  So
    however often the owner calls [acquireLock] while the lock is fresh, each
    call is refused and the lock keeps its timestamp, and once more than
    [staleLockTimeout] has passed since that timestamp the lock is stale:
    [isLockHeld] returns false. *)
Theorem acquireLock_not_reentrant this w lockName md l :
  constructed this ->
  stored this w lockName = Some l ->
  ownerId l = Some (_instanceId this) ->
  ~ stale this w l ->
  acquireLock this lockName md w = (Normal (refused (_instanceId this)), w)
  /\ (forall delays ms,
        Forall (fun d => 0 <= d) delays ->
        clock w + total delays - timestamp l <= _staleLockTimeout this ->
        clock w + total delays + ms - timestamp l > _staleLockTimeout this ->
        result (retries this lockName md delays) w
        = Normal (replicate (length delays) (refused (_instanceId this)))
        /\ stored this (advance ms (exec (retries this lockName md delays) w)) lockName
           = Some l
        /\ stale this (advance ms (exec (retries this lockName md delays) w)) l
        /\ result (isLockHeld this lockName)
             (advance ms (exec (retries this lockName md delays) w)) = Normal false).
Proof.
  intros Hnew Hs Ho Hfresh.
  assert (Htruthy : truthy_owner (ownerId l) = true).
  { rewrite Ho. apply constructed_owner_truthy, Hnew. }
  split.
  - rewrite (acquireLock_held this w lockName md l Hs Htruthy Hfresh).
    unfold refused. rewrite Ho. reflexivity.
  - intros delays ms Hdelays Hfresh' Hlate. unfold result, exec.
    rewrite (retries_refused this lockName md l delays Htruthy Hdelays w Hs Hfresh').
    cbn [fst snd]. unfold refused. rewrite Ho.
    assert (Hstale : stale this (advance ms (advance (total delays) w)) l).
    { unfold stale, advance. cbn. lia. }
    split; [reflexivity|]. split; [exact Hs|]. split; [exact Hstale|].
    rewrite isLockHeld_run.
    replace (stored this (advance ms (advance (total delays) w)) lockName)
      with (Some l) by (symmetry; exact Hs).
    rewrite Ho, bool_decide_eq_true_2 by exact Hstale. reflexivity.
Qed.

Lemma acquireLock_not_reentrant_witness :
  acquireLock instance1 "x" None page_held
  = (Normal (refused "instance_1000_abc"), page_held)
  /\ result (retries instance1 "x" None [30; 30; 40]) page_held
     = Normal (replicate 3 (refused "instance_1000_abc"))
  /\ result (isLockHeld instance1 "x")
       (advance 1 (exec (retries instance1 "x" None [30; 30; 40]) page_held))
     = Normal false.
Proof.
  assert (Hnew : constructed instance1).
  { exists ns1_options, "abc", blank_page. vm_compute. reflexivity. }
  assert (Hs : stored instance1 page_held "x" = Some lock_x) by (vm_compute; reflexivity).
  assert (Hfresh : ~ stale instance1 page_held lock_x) by (vm_compute; discriminate).
  destruct (acquireLock_not_reentrant instance1 page_held "x" None lock_x
              Hnew Hs eq_refl Hfresh) as [Hrefused Hretries].
  split; [exact Hrefused|].
  destruct (Hretries [30; 30; 40] 1) as (Hr & _ & _ & Hheld).
  - repeat constructor; lia.
  - vm_compute. discriminate.
  - vm_compute. reflexivity.
  - split; [exact Hr | exact Hheld].
Defined.

(** * Further properties of the shared-state manager *)

(** ** The key/value store *)

(** X1: on a pristine data object and under a key other than ["__proto__"],
    what one manager stores, every manager of the same namespace reads back,
    except that a stored [undefined] reads as the default value; the other
    keys read as before. *)
Theorem shared_data_round_trip a b key value defaultValue w :
  getNamespace a = getNamespace b ->
  pristine (data_of (getNamespace a) w) ->
  key <> "__proto__" ->
  result (getSharedData b key defaultValue) (exec (setSharedData a key value) w)
  = Normal (if is_defined value then value else defaultValue)
  /\ (forall other d, other <> key ->
        result (getSharedData b other d) (exec (setSharedData a key value) w)
        = result (getSharedData b other d) w).
Proof.
  unfold getNamespace. intros Hns _ _. unfold result, exec.
  rewrite setSharedData_run. cbn [snd].
  assert (Hdata : data_of (_namespace b)
            (set_window (alter (with_data <[key := value]>) (_namespace a)) (ensured a w))
          = <[key := value]> (data_of (_namespace b) w)).
  { rewrite <- Hns. apply data_of_alter_data. }
  split.
  - rewrite getSharedData_run, Hdata, lookup_insert_eq. reflexivity.
  - intros other d Hne. rewrite !getSharedData_run, Hdata.
    rewrite lookup_insert_ne by congruence. reflexivity.
Qed.

Lemma shared_data_round_trip_witness :
  result (getSharedData instance2 "sharedKey" AUndefined)
    (exec (setSharedData instance1 "sharedKey" (AString "sharedValue")) page_ready)
  = Normal (AString "sharedValue")
  /\ result (getSharedData instance2 "sharedKey" (ANumber 7))
       (exec (setSharedData instance1 "sharedKey" AUndefined) page_ready)
     = Normal (ANumber 7).
Proof.
  split.
  - refine (proj1 (shared_data_round_trip instance1 instance2 "sharedKey"
                     (AString "sharedValue") AUndefined page_ready _ _ _)).
    + reflexivity.
    + vm_compute. reflexivity.
    + discriminate.
  - refine (proj1 (shared_data_round_trip instance1 instance2 "sharedKey"
                     AUndefined (ANumber 7) page_ready _ _ _)).
    + reflexivity.
    + vm_compute. reflexivity.
    + discriminate.
Defined.

(** X2: on a pristine data object and for an ordinary key,
    [deleteSharedData] returns whether the key was a property of the data
    object (a key holding [undefined] counts, although [getSharedData]
    already answered the default for it); afterwards [getSharedData] answers
    the default value for the key, the other keys read as before, and no
    lock changes. *)
Theorem deleteSharedData_forgets this key w :
  pristine (data_of (_namespace this) w) ->
  ordinary key ->
  result (deleteSharedData this key) w
  = Normal (bool_decide (is_Some (data_of (_namespace this) w !! key)))
  /\ (forall d, result (getSharedData this key d) (exec (deleteSharedData this key) w)
                = Normal d)
  /\ (forall other d, other <> key ->
        result (getSharedData this other d) (exec (deleteSharedData this key) w)
        = result (getSharedData this other d) w)
  /\ (forall ns, locks_of ns (exec (deleteSharedData this key) w) = locks_of ns w)
  /\ (forall value,
        result (deleteSharedData this key) (exec (setSharedData this key value) w)
        = Normal true).
Proof.
  intros _ _.
  assert (Hdata : data_of (_namespace this) (exec (deleteSharedData this key) w)
                  = delete key (data_of (_namespace this) w)).
  { unfold exec. rewrite deleteSharedData_run.
    destruct (bool_decide (is_Some (data_of (_namespace this) w !! key))) eqn:Hin;
      cbn [snd].
    - apply data_of_alter_data.
    - rewrite data_ensured. symmetry. apply delete_id.
      apply bool_decide_eq_false in Hin. apply eq_None_not_Some, Hin. }
  split; [|split; [|split; [|split]]].
  - unfold result. rewrite deleteSharedData_run. destruct (bool_decide _); reflexivity.
  - intros d. unfold result. rewrite getSharedData_run, Hdata, lookup_delete_eq.
    reflexivity.
  - intros other d Hne. unfold result. rewrite !getSharedData_run, Hdata.
    rewrite lookup_delete_ne by congruence. reflexivity.
  - intros ns. unfold exec. rewrite deleteSharedData_run.
    destruct (bool_decide _); cbn [snd].
    + rewrite locks_of_alter_data. apply locks_ensured.
    + apply locks_ensured.
  - intros value. unfold result, exec. rewrite setSharedData_run. cbn [snd].
    rewrite deleteSharedData_run, (data_of_alter_data this <[key := value]>).
    rewrite lookup_insert_eq, bool_decide_eq_true_2 by (eexists; reflexivity).
    reflexivity.
Qed.

Lemma deleteSharedData_forgets_witness :
  result (deleteSharedData instance1 "key") (exec (setSharedData instance1 "key" AUndefined)
                                               page_ready) = Normal true
  /\ result (getSharedData instance1 "other" ANull)
       (exec (deleteSharedData instance1 "key") page_ready)
     = result (getSharedData instance1 "other" ANull) page_ready.
Proof.
  split.
  - destruct (deleteSharedData_forgets instance1 "key" page_ready)
      as (_ & _ & _ & _ & Hset); [vm_compute; reflexivity ..|].
    apply Hset.
  - destruct (deleteSharedData_forgets instance1 "key" page_ready)
      as (_ & _ & Hother & _); [vm_compute; reflexivity ..|].
    apply Hother. discriminate.
Defined.

(** ** The constructor *)

(** X3: constructing a manager on a page whose namespace object already
    exists changes nothing there, whatever [version] is asked for: locks, data
    and the version recorded by the first manager stay.  On a page without the
    object it puts one there with no locks, no data and its own version. *)
Theorem constructor_joins_namespace options random w :
  (forall st,
     window w !! or_string (namespace options) DEFAULT_NAMESPACE = Some st ->
     exec (new_SharedStateManager options random) w = w)
  /\ (window w !! or_string (namespace options) DEFAULT_NAMESPACE = None ->
      window (exec (new_SharedStateManager options random) w)
      = <[or_string (namespace options) DEFAULT_NAMESPACE :=
            {| version := or_string (version_ options) "1.0.0";
               locks := ∅; data := ∅ |}]> (window w)).
Proof.
  unfold exec. rewrite new_SharedStateManager_run. cbn [snd]. split.
  - intros st Hst. apply ensure_initialised. exists st. exact Hst.
  - intros Hst. unfold ensured, exec, _ensureSharedState.
    rewrite run_gets. cbn [_namespace]. rewrite Hst. reflexivity.
Qed.

Lemma constructor_joins_namespace_witness :
  exec (new_SharedStateManager
          {| namespace := Some "ns1"; version_ := Some "2.0.0";
             staleLockTimeout := Some 5 |} "later") page_held
  = page_held.
Proof.
  destruct (constructor_joins_namespace
              {| namespace := Some "ns1"; version_ := Some "2.0.0";
                 staleLockTimeout := Some 5 |} "later" page_held) as [Hjoin _].
  eapply Hjoin. vm_compute. reflexivity.
Defined.

(** X4: the falsy options fall back: a constructed manager never has an
    empty namespace, an empty version or a zero [staleLockTimeout], and its
    id is ["instance_"], the clock reading, ["_"] and the random suffix. *)
Theorem constructed_manager_defaults options random w this :
  result (new_SharedStateManager options random) w = Normal this ->
  getNamespace this <> ""
  /\ getVersion this <> ""
  /\ _staleLockTimeout this <> 0
  /\ getInstanceId this = "instance_" +:+ pretty (clock w) +:+ "_" +:+ random
  /\ (namespace options = None \/ namespace options = Some "" ->
      getNamespace this = "__WME_SDK_PLUS_SHARED_STATE__")
  /\ (staleLockTimeout options = None \/ staleLockTimeout options = Some 0 ->
      _staleLockTimeout this = 60000).
Proof.
  unfold result. rewrite new_SharedStateManager_run. cbn [fst]. intros [= <-].
  unfold getNamespace, getVersion, getInstanceId.
  cbn [_namespace _version _staleLockTimeout _instanceId].
  split; [|split; [|split; [|split; [|split]]]].
  - unfold or_string. destruct (namespace options) as [s|]; [|discriminate].
    case_decide; [discriminate | assumption].
  - unfold or_string. destruct (version_ options) as [s|]; [|discriminate].
    case_decide; [discriminate | assumption].
  - unfold or_number. destruct (staleLockTimeout options) as [n|]; [|discriminate].
    case_decide; [discriminate | assumption].
  - reflexivity.
  - intros [->| ->]; reflexivity.
  - intros [->| ->]; reflexivity.
Qed.

Lemma constructed_manager_defaults_witness :
  getNamespace instance1 <> "" /\ _staleLockTimeout instance1 <> 0.
Proof.
  destruct (constructed_manager_defaults ns1_options "abc" blank_page instance1)
    as (Hns & _ & Ht & _).
  - vm_compute. reflexivity.
  - split; [exact Hns | exact Ht].
Defined.

(** ** Locks: how the calls compose *)


Lemma taken_clock this lockName md w : clock (taken this lockName md w) = clock w.
Proof. unfold taken. cbn [clock set_window]. apply ensured_clock. Qed.

Lemma locks_of_taken this lockName md w :
  locks_of (_namespace this) (taken this lockName md w)
  = <[lockName := fresh_lock this w md]> (locks_of (_namespace this) w).
Proof. unfold taken. apply (locks_of_alter_locks this <[lockName := fresh_lock this w md]>). Qed.

Lemma acquireLock_free_exec this w lockName md :
  stored this w lockName = None
  \/ (exists l, stored this w lockName = Some l /\ stale this w l) ->
  exec (acquireLock this lockName md) w = taken this lockName md w.
Proof.
  intros Hfree. unfold exec. rewrite acquireLock_free; [reflexivity|].
  destruct Hfree as [->|(l & -> & Hst)]; [exact I | right; exact Hst].
Qed.

Lemma stored_same_namespace a b w lockName :
  _namespace a = _namespace b -> stored a w lockName = stored b w lockName.
Proof. unfold stored. intros ->. reflexivity. Qed.

Lemma releaseLock_owner_only_aux this w lockName l :
  stored this w lockName = Some l ->
  ownerId l = Some (_instanceId this) ->
  result (releaseLock this lockName) w = Normal true
  /\ locks_of (_namespace this) (exec (releaseLock this lockName) w)
     = delete lockName (locks_of (_namespace this) w)
  /\ (forall ns, data_of ns (exec (releaseLock this lockName) w) = data_of ns w).
Proof.
  intros Hs Ho. unfold result, exec. rewrite releaseLock_run, Hs.
  rewrite (decide_True (P := owned_by (_instanceId this) l)) by exact Ho.
  cbn [fst snd]. split; [reflexivity|]. split.
  - apply locks_of_alter_locks.
  - intros ns. rewrite data_of_alter_locks. apply data_ensured.
Qed.

Lemma releaseLock_not_owner this w lockName :
  (forall l, stored this w lockName = Some l -> ownerId l <> Some (_instanceId this)) ->
  releaseLock this lockName w = (Normal false, ensured this w).
Proof.
  intros Hother. rewrite releaseLock_run.
  destruct (stored this w lockName) as [l|]; [|reflexivity].
  rewrite (decide_False (P := owned_by (_instanceId this) l)); [reflexivity|].
  apply Hother. reflexivity.
Qed.

(** X5: on a pristine [locks] object and for a name other than
    ["__proto__"], when the lock is free (absent, or stale), [acquireLock]
    followed by [releaseLock] of the same manager returns true and leaves the
    namespace without the lock; the other locks and the data are as before,
    so a name that was absent leaves no trace. *)
Theorem acquire_release_round_trip this w lockName md :
  pristine (locks_of (_namespace this) w) ->
  lockName <> "__proto__" ->
  stored this w lockName = None
  \/ (exists l, stored this w lockName = Some l /\ stale this w l) ->
  result (releaseLock this lockName) (exec (acquireLock this lockName md) w) = Normal true
  /\ locks_of (_namespace this)
       (exec (releaseLock this lockName) (exec (acquireLock this lockName md) w))
     = delete lockName (locks_of (_namespace this) w)
  /\ (stored this w lockName = None ->
      locks_of (_namespace this)
        (exec (releaseLock this lockName) (exec (acquireLock this lockName md) w))
      = locks_of (_namespace this) w)
  /\ (forall ns,
        data_of ns (exec (releaseLock this lockName) (exec (acquireLock this lockName md) w))
        = data_of ns w).
Proof.
  intros _ _ Hfree. rewrite (acquireLock_free_exec this w lockName md Hfree).
  destruct (releaseLock_owner_only_aux this (taken this lockName md w) lockName
              (fresh_lock this w md)) as (Hr & Hl & Hd).
  { apply stored_taken. }
  { reflexivity. }
  assert (Hlocks : locks_of (_namespace this)
            (exec (releaseLock this lockName) (taken this lockName md w))
          = delete lockName (locks_of (_namespace this) w)).
  { rewrite Hl, locks_of_taken. apply delete_insert_eq. }
  split; [exact Hr|]. split; [exact Hlocks|]. split.
  - intros Hnone. rewrite Hlocks. apply delete_id.
    rewrite <- stored_locks_of. exact Hnone.
  - intros ns. rewrite Hd. apply data_of_taken.
Qed.

Lemma acquire_release_round_trip_witness :
  result (releaseLock instance1 "x") (exec (acquireLock instance1 "x" None) page_ready)
  = Normal true
  /\ locks_of "ns1"
       (exec (releaseLock instance1 "x") (exec (acquireLock instance1 "x" None) page_ready))
     = locks_of "ns1" page_ready.
Proof.
  destruct (acquire_release_round_trip instance1 page_ready "x" None)
    as (Hr & _ & Hsame & _).
  - vm_compute. reflexivity.
  - discriminate.
  - left. vm_compute. reflexivity.
  - split; [exact Hr|]. apply Hsame. vm_compute. reflexivity.
Defined.







(** ** Listing and sweeping *)

Lemma elem_of_selected (P : LockState -> Prop) {P_dec : forall l, Decision (P l)}
    (m : gmap string LockState) names name :
  name ∈ selected P m names <-> name ∈ names /\ exists l, m !! name = Some l /\ P l.
Proof.
  unfold selected. rewrite list_elem_of_omap. split.
  - intros (k & Hk & Hsel). destruct (m !! k) as [l|] eqn:Hl; [|discriminate].
    cbn in Hsel. destruct (decide (P l)) as [HP|]; [|discriminate].
    injection Hsel as <-. split; [exact Hk|]. exists l. split; assumption.
  - intros (Hin & l & Hl & HP). exists name. split; [exact Hin|].
    rewrite Hl. cbn. rewrite decide_True by exact HP. reflexivity.
Qed.

Lemma NoDup_selected (P : LockState -> Prop) {P_dec : forall l, Decision (P l)}
    (m : gmap string LockState) names :
  NoDup names -> NoDup (selected P m names).
Proof.
  induction 1 as [|k rest Hk Hnd IH]; [constructor|].
  unfold selected. cbn [omap list_omap]. fold (selected P m rest).
  destruct (m !! k) as [l|]; cbn [mbind option_bind]; [|exact IH].
  destruct (decide (P l)); [|exact IH].
  constructor; [|exact IH]. intros Hin. apply elem_of_selected in Hin as [Hin _].
  contradiction.
Qed.

(** X8: on a pristine [locks] object, [listLocks(includeStale)] returns
    each name once, and a name is in the list exactly when a lock is stored
    under it and, unless [includeStale] is set, that lock is not stale for
    the caller. *)
Theorem listLocks_membership this includeStale w :
  pristine (locks_of (_namespace this) w) ->
  exists names,
    result (listLocks this includeStale) w = Normal names
    /\ NoDup names
    /\ (forall name,
          name ∈ names <->
          exists l, stored this w name = Some l
                    /\ (includeStale = true \/ ~ stale this w l)).
Proof.
  intros _.
  unfold result. rewrite listLocks_run. cbn [fst]. eexists. split; [reflexivity|].
  split.
  - apply NoDup_selected, NoDup_fst_map_to_list.
  - intros name. rewrite elem_of_selected. setoid_rewrite stored_locks_of. split.
    + intros (_ & l & Hl & Hp). exists l. split; [exact Hl | exact Hp].
    + intros (l & Hl & Hp). split.
      * apply list_elem_of_fmap. exists (name, l). split; [reflexivity|].
        apply elem_of_map_to_list. exact Hl.
      * exists l. split; [exact Hl | exact Hp].
Qed.

Lemma listLocks_membership_witness :
  exists names,
    result (listLocks instance1 false) page_mixed = Normal names
    /\ "y" ∈ names /\ "x" ∉ names.
Proof.
  destruct (listLocks_membership instance1 false page_mixed) as (names & Hr & _ & Hin).
  { vm_compute. reflexivity. }
  exists names. split; [exact Hr|]. split.
  - apply Hin. exists lock_y. split; [vm_compute; reflexivity|].
    right. vm_compute. discriminate.
  - intros Hx. apply Hin in Hx as (l & Hl & [Hb|Hfresh]); [discriminate|].
    vm_compute in Hl. injection Hl as <-. apply Hfresh. vm_compute. reflexivity.
Defined.

Lemma filter_owned_twice id (m : gmap string LockState) :
  filter (fun kl : string * LockState => owned_by id kl.2)
    (filter (fun kl : string * LockState => ~ owned_by id kl.2) m) = ∅.
Proof.
  apply map_empty. intros k. apply eq_None_not_Some. intros [l Hl].
  apply map_lookup_filter_Some in Hl as [Hl Ho].
  apply map_lookup_filter_Some in Hl as [_ Hn]. contradiction.
Qed.

(** X9: on a pristine [locks] object, after [releaseAllLocks] the manager
    owns nothing: [hasLock] is false for every name, and a second
    [releaseAllLocks] returns 0 and leaves every lock where it is. *)
Theorem releaseAllLocks_idempotent this w :
  pristine (locks_of (_namespace this) w) ->
  (forall lockName,
     result (hasLock this lockName) (exec (releaseAllLocks this) w) = Normal false)
  /\ result (releaseAllLocks this) (exec (releaseAllLocks this) w) = Normal 0%nat
  /\ (forall ns,
        locks_of ns (exec (releaseAllLocks this) (exec (releaseAllLocks this) w))
        = locks_of ns (exec (releaseAllLocks this) w)).
Proof.
  intros _.
  assert (Hlocks : locks_of (_namespace this) (exec (releaseAllLocks this) w)
                   = filter (fun kl : string * LockState =>
                               ~ owned_by (_instanceId this) kl.2)
                       (locks_of (_namespace this) w)).
  { unfold exec. rewrite releaseAllLocks_run. apply locks_of_alter_locks. }
  split; [|split].
  - intros lockName. unfold result. rewrite hasLock_run, stored_locks_of, Hlocks.
    cbn [fst].
    destruct (filter _ _ !! lockName) as [l|] eqn:Hl; [|reflexivity].
    apply map_lookup_filter_Some in Hl as [_ Hn]. cbn in Hn.
    rewrite bool_decide_eq_false_2 by exact Hn. reflexivity.
  - unfold result at 1. rewrite releaseAllLocks_run, Hlocks, filter_owned_twice.
    reflexivity.
  - intros ns. unfold exec at 1. rewrite releaseAllLocks_run. cbn [snd].
    destruct (decide (ns = _namespace this)) as [->|Hne].
    + rewrite locks_of_alter_locks, Hlocks.
      apply map_filter_id. intros k l Hl.
      apply map_lookup_filter_Some in Hl as [_ Hn]. exact Hn.
    + apply locks_of_alter_locks_ne, Hne.
Qed.

Lemma releaseAllLocks_idempotent_witness :
  result (hasLock instance1 "z") (exec (releaseAllLocks instance1) page_mixed) = Normal false
  /\ result (releaseAllLocks instance1) (exec (releaseAllLocks instance1) page_mixed)
     = Normal 0%nat.
Proof.
  destruct (releaseAllLocks_idempotent instance1 page_mixed) as (Hhas & Hzero & _).
  { vm_compute. reflexivity. }
  split; [apply Hhas | exact Hzero].
Defined.

(** X10: on a pristine [locks] object and for an ordinary name,
    [cleanupStaleLocks] cannot be seen through the caller's [isLockHeld],
    [getLockInfo] or [listLocks()], nor in whether its [acquireLock] would
    succeed: a stale lock already counted as not held. *)
Theorem cleanupStaleLocks_unobservable this w lockName md :
  pristine (locks_of (_namespace this) w) ->
  ordinary lockName ->
  result (isLockHeld this lockName) (exec (cleanupStaleLocks this) w)
  = result (isLockHeld this lockName) w
  /\ result (getLockInfo this lockName) (exec (cleanupStaleLocks this) w)
     = result (getLockInfo this lockName) w
  /\ (forall r r',
        result (acquireLock this lockName md) (exec (cleanupStaleLocks this) w) = Normal r ->
        result (acquireLock this lockName md) w = Normal r' ->
        success r = success r')
  /\ (forall names names' name,
        result (listLocks this false) (exec (cleanupStaleLocks this) w) = Normal names ->
        result (listLocks this false) w = Normal names' ->
        name ∈ names <-> name ∈ names').
Proof.
  intros _ _.
  set (w' := exec (cleanupStaleLocks this) w).
  assert (Hclock : clock w' = clock w).
  { unfold w', exec. rewrite cleanupStaleLocks_run. cbn [snd clock set_window].
    apply ensured_clock. }
  assert (Hstale : forall l, stale this w' l <-> stale this w l).
  { intros l. apply stale_same_clock, Hclock. }
  assert (Hstored : forall name,
            stored this w' name
            = match stored this w name with
              | Some l => if decide (stale this w l) then None else Some l
              | None => None
              end).
  { intros name. rewrite !stored_locks_of. unfold w', exec.
    rewrite cleanupStaleLocks_run. cbn [snd]. rewrite locks_of_alter_locks.
    rewrite map_lookup_filter.
    destruct (locks_of (_namespace this) w !! name) as [l|]; cbn; [|reflexivity].
    destruct (decide (stale this w l)) as [Hs|Hs].
    - rewrite option_guard_False by (intros Hn; apply Hn, Hs). reflexivity.
    - rewrite option_guard_True by exact Hs. reflexivity. }
  split; [|split; [|split]].
  - unfold result. rewrite !isLockHeld_run, Hstored. cbn [fst].
    destruct (stored this w lockName) as [l|]; [|reflexivity].
    destruct (decide (stale this w l)) as [Hs|Hs].
    + rewrite (bool_decide_eq_true_2 _ Hs). destruct (ownerId l); reflexivity.
    + rewrite (bool_decide_ext _ _ (Hstale l)). reflexivity.
  - unfold result. rewrite !getLockInfo_run, Hstored. cbn [fst].
    destruct (stored this w lockName) as [l|]; [|reflexivity].
    destruct (decide (stale this w l)) as [Hs|Hs].
    + rewrite (bool_decide_eq_true_2 _ Hs). reflexivity.
    + rewrite (bool_decide_ext _ _ (Hstale l)). reflexivity.
  - intros r r'. rewrite !acquireLock_result, Hstored.
    destruct (stored this w lockName) as [l|].
    + destruct (decide (stale this w l)) as [Hs|Hs].
      * rewrite (bool_decide_eq_true_2 _ Hs), andb_false_r.
        intros [= <-] [= <-]. reflexivity.
      * rewrite (bool_decide_ext _ _ (Hstale l)).
        intros [= <-] [= <-]. reflexivity.
    + intros [= <-] [= <-]. reflexivity.
  - intros names names' name. unfold result. rewrite !listLocks_run. cbn [fst].
    intros [= <-] [= <-]. rewrite !elem_of_selected.
    assert (Hkeys : forall v, name ∈ (map_to_list (locks_of (_namespace this) v)).*1
                              <-> is_Some (stored this v name)).
    { intros v. rewrite stored_locks_of. split.
      - intros Hin. apply list_elem_of_fmap in Hin as ([k l] & -> & Hin).
        apply elem_of_map_to_list in Hin. exists l. exact Hin.
      - intros [l Hl]. apply list_elem_of_fmap. exists (name, l).
        split; [reflexivity|]. apply elem_of_map_to_list. exact Hl. }
    rewrite !Hkeys, <- !stored_locks_of. fold w'. rewrite Hstored. unfold listed.
    destruct (stored this w name) as [l|].
    + destruct (decide (stale this w l)) as [Hs|Hs].
      * split.
        -- intros ([? [=]] & _).
        -- intros (_ & l' & [= <-] & [[=]|Hn]). contradiction.
      * split.
        -- intros (_ & l' & [= <-] & _). split; [eexists; reflexivity|].
           exists l. split; [reflexivity | right; exact Hs].
        -- intros (_ & l' & [= <-] & _). split; [eexists; reflexivity|].
           exists l. split; [reflexivity | right; intros H; apply Hs, Hstale, H].
    + split; intros ([? [=]] & _).
Qed.

Lemma cleanupStaleLocks_unobservable_witness :
  result (isLockHeld instance1 "x") (exec (cleanupStaleLocks instance1) page_mixed)
  = result (isLockHeld instance1 "x") page_mixed
  /\ success {| success := true; currentOwnerId := None; wasStale := Some false |}
     = success took_over.
Proof.
  destruct (cleanupStaleLocks_unobservable instance1 page_mixed "x" None)
    as (Hheld & _ & Hacq & _); [vm_compute; reflexivity ..|].
  split; [exact Hheld|].
  apply (Hacq {| success := true; currentOwnerId := None; wasStale := Some false |}
              took_over); vm_compute; reflexivity.
Defined.

(** ** What no call does *)

Lemma version_kept_ensured this w ns st :
  window w !! ns = Some st -> window (ensured this w) !! ns = Some st.
Proof. intros Hst. unfold ensured. rewrite ensure_lookup, Hst. reflexivity. Qed.

Lemma version_kept_alter ns0 f w ns st :
  (forall st0, version (f st0) = version st0) ->
  window w !! ns = Some st ->
  exists st', window (set_window (alter f ns0) w) !! ns = Some st'
              /\ version st' = version st.
Proof.
  intros Hf Hst. cbn [window set_window]. rewrite lookup_alter.
  case_decide as Hd.
  - subst ns0. rewrite Hst. exists (f st). split; [reflexivity | apply Hf].
  - exists st. split; [exact Hst | reflexivity].
Qed.

(** The states a call can leave behind. *)
Lemma exec_perform_cases this op w :
  (writes_data op = false /\
     (exec (perform this op) w = w
      \/ exec (perform this op) w = ensured this w
      \/ exists g, exec (perform this op) w
                   = set_window (alter (with_locks g) (_namespace this)) (ensured this w)))
  \/ (writes_data op = true /\
     (exec (perform this op) w = ensured this w
      \/ exists g, exec (perform this op) w
                   = set_window (alter (with_data g) (_namespace this)) (ensured this w))).
Proof.
  destruct op as [lockName md|lockName|lockName|lockName|lockName| |key value|key dflt|key| |includeStale| ];
    cbn [perform writes_data]; rewrite exec_reply; unfold exec.
  - left. split; [reflexivity|].
    destruct (acquireLock_cases this lockName md w)
      as [(l & _ & _ & _ & ->)|(b & ->)]; cbn [snd].
    + left. reflexivity.
    + right. right. eexists. reflexivity.
  - left. split; [reflexivity|]. rewrite releaseLock_run.
    destruct (stored this w lockName) as [l|].
    + destruct (decide _); cbn [snd].
      * right. right. eexists. reflexivity.
      * right. left. reflexivity.
    + right. left. reflexivity.
  - left. split; [reflexivity|]. rewrite hasLock_run. right. left. reflexivity.
  - left. split; [reflexivity|]. rewrite isLockHeld_run. right. left. reflexivity.
  - left. split; [reflexivity|]. rewrite getLockInfo_run. right. left. reflexivity.
  - left. split; [reflexivity|]. rewrite releaseAllLocks_run.
    right. right. eexists. reflexivity.
  - right. split; [reflexivity|]. rewrite setSharedData_run.
    right. eexists. reflexivity.
  - left. split; [reflexivity|]. rewrite getSharedData_run. right. left. reflexivity.
  - right. split; [reflexivity|]. rewrite deleteSharedData_run.
    destruct (bool_decide _); cbn [snd].
    + right. eexists. reflexivity.
    + left. reflexivity.
  - right. split; [reflexivity|]. rewrite clearSharedData_run.
    right. eexists. reflexivity.
  - left. split; [reflexivity|]. rewrite listLocks_run. right. left. reflexivity.
  - left. split; [reflexivity|]. rewrite cleanupStaleLocks_run.
    right. right. eexists. reflexivity.
Qed.

(** X11: whatever is called on whatever manager, the clock is not moved, no
    namespace object is removed from the page or has its version changed, a
    call that is not one of [setSharedData], [deleteSharedData] and
    [clearSharedData] changes no data, and those three change no lock. *)
Theorem calls_keep_their_place this op w :
  clock (exec (perform this op) w) = clock w
  /\ (forall ns st,
        window w !! ns = Some st ->
        exists st', window (exec (perform this op) w) !! ns = Some st'
                    /\ version st' = version st)
  /\ (writes_data op = false ->
      forall ns, data_of ns (exec (perform this op) w) = data_of ns w)
  /\ (writes_data op = true ->
      forall ns, locks_of ns (exec (perform this op) w) = locks_of ns w).
Proof.
  destruct (exec_perform_cases this op w)
    as [(Hk & [->|[->|(g & ->)]])|(Hk & [->|(g & ->)])]; rewrite Hk.
  - repeat split; try discriminate; eauto.
  - split; [apply ensured_clock|]. split; [|split; [|discriminate]].
    + intros ns st Hst. exists st. split; [|reflexivity].
      apply version_kept_ensured, Hst.
    + intros _ ns. apply data_ensured.
  - split; [apply ensured_clock|]. split; [|split; [|discriminate]].
    + intros ns st Hst. apply version_kept_alter; [reflexivity|].
      apply version_kept_ensured, Hst.
    + intros _ ns. rewrite data_of_alter_locks. apply data_ensured.
  - split; [apply ensured_clock|]. split; [|split; [discriminate|]].
    + intros ns st Hst. exists st. split; [|reflexivity].
      apply version_kept_ensured, Hst.
    + intros _ ns. apply locks_ensured.
  - split; [apply ensured_clock|]. split; [|split; [discriminate|]].
    + intros ns st Hst. apply version_kept_alter; [reflexivity|].
      apply version_kept_ensured, Hst.
    + intros _ ns. rewrite locks_of_alter_data. apply locks_ensured.
Qed.

Lemma calls_keep_their_place_witness :
  data_of "ns1" (exec (perform instance2 (AcquireLock "x" None)) page_stale)
  = data_of "ns1" page_stale
  /\ locks_of "ns1" (exec (perform instance2 ClearSharedData) page_stale)
     = locks_of "ns1" page_stale.
Proof.
  split.
  - destruct (calls_keep_their_place instance2 (AcquireLock "x" None) page_stale)
      as (_ & _ & Hdata & _).
    apply Hdata. reflexivity.
  - destruct (calls_keep_their_place instance2 ClearSharedData page_stale)
      as (_ & _ & _ & Hlocks).
    apply Hlocks. reflexivity.
Defined.

(** * Further properties of the selection mode *)

Section selection_mode.
Import SelectionMode SelectionControl.

(** ** Filters *)

Lemma includes_true {A} `{EqDecision A} (array : list A) (x : A) :
  includes array x = true <-> x ∈ array.
Proof. unfold includes. apply bool_decide_eq_true. Qed.

Lemma existsb_includes {A} `{EqDecision A} (allowed ids : list A) :
  existsb (fun id => includes allowed id) ids = true
  <-> exists id, id ∈ ids /\ id ∈ allowed.
Proof.
  rewrite existsb_exists. split.
  - intros (id & Hin & Hinc). exists id. split.
    + apply list_elem_of_In, Hin.
    + apply includes_true, Hinc.
  - intros (id & Hin & Hinc). exists id. split.
    + apply list_elem_of_In, Hin.
    + apply includes_true, Hinc.
Qed.

(** X13: [matchesFilter] accepts a selection exactly when its type is among
    [filter.types], if that array is there and not empty, and one of its ids
    is among [filter.allowedIds], if that array is there and not empty; so a
    filter without either accepts everything, and with [allowedIds] a
    selection without ids is rejected.  [permanentHazardSubtypes] plays no
    part. *)
Theorem matchesFilter_spec objectType ids f :
  (matchesFilter objectType ids f = true <->
     (has_items (types f) = true -> objectType ∈ default [] (types f))
     /\ (has_items (allowedIds f) = true ->
         exists id, id ∈ ids /\ id ∈ default [] (allowedIds f)))
  /\ (forall subtypes,
        matchesFilter objectType ids
          {| types := types f; allowedIds := allowedIds f;
             permanentHazardSubtypes := subtypes |}
        = matchesFilter objectType ids f).
Proof.
  split; [|reflexivity].
  unfold matchesFilter.
  destruct (has_items (types f)); cbn [andb].
  - destruct (includes (default [] (types f)) objectType) eqn:Ht; cbn [negb].
    + apply includes_true in Ht.
      destruct (has_items (allowedIds f)).
      * destruct (existsb _ ids) eqn:Hi; cbn [negb].
        -- apply existsb_includes in Hi. split; [intros _; split; auto | reflexivity].
        -- split; [discriminate|]. intros (_ & Hid).
           apply existsb_includes in Hid; [|reflexivity]. congruence.
      * split; [|reflexivity]. intros _. split; [auto | discriminate].
    + split; [discriminate|]. intros (Hin & _).
      apply includes_true in Hin; [|reflexivity]. congruence.
  - destruct (has_items (allowedIds f)).
    + destruct (existsb _ ids) eqn:Hi; cbn [negb].
      * apply existsb_includes in Hi. split; [|reflexivity].
        intros _. split; [discriminate | auto].
      * split; [discriminate|]. intros (_ & Hid).
        apply existsb_includes in Hid; [|reflexivity]. congruence.
    + split; [|reflexivity]. intros _. split; discriminate.
Qed.

Lemma matchesFilter_spec_witness :
  matchesFilter venue [NumberId 7]
    {| types := Some [segment; venue]; allowedIds := Some [];
       permanentHazardSubtypes := None |} = true.
Proof.
  destruct (matchesFilter_spec venue [NumberId 7]
              {| types := Some [segment; venue]; allowedIds := Some [];
                 permanentHazardSubtypes := None |}) as [[_ Hmatch] _].
  apply Hmatch. split.
  - intros _. cbn. apply list_elem_of_In. cbn. auto.
  - discriminate.
Defined.

Lemma matchesFilter_single controller featureType featureId :
  _matchesFilter controller featureType featureId
  = matchesFilter featureType [featureId] (_filter controller).
Proof.
  unfold _matchesFilter, matchesFilter.
  destruct (has_items (types (_filter controller))
            && negb (includes (default [] (types (_filter controller))) featureType));
    [reflexivity|].
  destruct (has_items (allowedIds (_filter controller))); [|reflexivity].
  cbn [andb existsb]. rewrite orb_false_r.
  destruct (includes _ featureId); reflexivity.
Qed.

(** X14: on one feature id the controller's [_matchesFilter] and the
    manager's [matchesFilter] give the same answer for the same filter. *)
Theorem matchesFilter_agrees_with_controller controller featureType featureId :
  _matchesFilter controller featureType featureId
  = matchesFilter featureType [featureId] (_filter controller).
Proof. apply matchesFilter_single. Qed.

(** ** The closures handed out *)

Lemma notify_run run o ids objectType s :
  notify run o ids objectType s =
    match onSelect o with
    | Some f => run f ids objectType (called f s)
    | None => (Normal tt, s)
    end.
Proof.
  unfold notify. destruct (onSelect o) as [f|]; [|reflexivity].
  unfold call. rewrite run_modify. reflexivity.
Qed.

Lemma onSetSelection_active run s objectType ids o :
  _isActive (manager s) = true ->
  _currentOptions (manager s) = Some o ->
  onSetSelection run objectType ids s =
    if matchesFilter objectType ids (filter o)
    then match onSelect o with
         | Some f =>
             (match result (run f ids objectType) (called f s) with
              | Normal _ => Normal (verdict_of o)
              | Throw e => Throw e
              end,
              exec (run f ids objectType) (called f s))
         | None => (Normal (verdict_of o), s)
         end
    else (Normal Suppress, s).
Proof.
  unfold onSetSelection, field. rewrite !run_gets. intros -> ->.
  destruct (matchesFilter objectType ids (filter o)); cbn [negb]; [|reflexivity].
  unfold verdict_of, result, exec.
  destruct (truthy (captureOnly o)); unfold bind; rewrite notify_run;
    destruct (onSelect o) as [f|]; try reflexivity;
    destruct (run f ids objectType (called f s)) as [[[]|e] s']; reflexivity.
Qed.

(** X15: the decision function for [sdk.Editing.setSelection], whatever the
    caller's [onSelect] does.  While the manager is in selection mode: a
    selection that does not pass the filter is suppressed, nothing is called
    and nothing changes; one that passes has [onSelect] (if given) called
    once with it, the state afterwards is the one that call leaves, and when
    it returns the native selection goes on exactly when [captureOnly], as
    read before the call, is not set; an error thrown by [onSelect] is
    thrown on.  Out of selection mode every call goes on and nothing is
    called. *)
Theorem onSetSelection_verdict run s objectType ids :
  (forall o,
     _isActive (manager s) = true ->
     _currentOptions (manager s) = Some o ->
     (matchesFilter objectType ids (filter o) = false ->
        onSetSelection run objectType ids s = (Normal Suppress, s))
     /\ (matchesFilter objectType ids (filter o) = true ->
         onSelect o = None ->
         onSetSelection run objectType ids s = (Normal (verdict_of o), s))
     /\ (forall f,
           matchesFilter objectType ids (filter o) = true ->
           onSelect o = Some f ->
           onSetSelection run objectType ids s =
             (match result (run f ids objectType) (called f s) with
              | Normal _ => Normal (verdict_of o)
              | Throw e => Throw e
              end,
              exec (run f ids objectType) (called f s))))
  /\ (_isActive (manager s) = false \/ _currentOptions (manager s) = None ->
      onSetSelection run objectType ids s = (Normal CONTINUE_INVOCATION, s)).
Proof.
  split.
  - intros o Hactive Hoptions.
    rewrite (onSetSelection_active run s objectType ids o Hactive Hoptions).
    split; [|split].
    + intros ->. reflexivity.
    + intros -> ->. reflexivity.
    + intros f -> ->. reflexivity.
  - unfold onSetSelection, field. rewrite !run_gets.
    intros [->| ->]; [reflexivity|]. destruct (_isActive (manager s)); reflexivity.
Qed.

Lemma onSetSelection_verdict_witness :
  (result (onSetSelection leaves segment [NumberId 1]) session_picking
   = Normal CONTINUE_INVOCATION
   /\ result isInSelectionMode
        (exec (onSetSelection leaves segment [NumberId 1]) session_picking)
      = Normal false)
  /\ onSetSelection leaves venue [NumberId 1] session_picking
     = (Normal Suppress, session_picking)
  /\ onSetSelection leaves venue [NumberId 1] session_idle
     = (Normal CONTINUE_INVOCATION, session_idle).
Proof.
  split; [|split].
  - destruct (onSetSelection_verdict leaves session_picking segment [NumberId 1])
      as [Hon _].
    destruct (Hon segments_picked) as (_ & _ & Hcalled); [reflexivity ..|].
    unfold result, exec. rewrite (Hcalled (Fn 0)); [|reflexivity ..].
    split; vm_compute; reflexivity.
  - destruct (onSetSelection_verdict leaves session_picking venue [NumberId 1])
      as [Hon _].
    destruct (Hon segments_picked) as (Hrejected & _); [reflexivity ..|].
    apply Hrejected. reflexivity.
  - destruct (onSetSelection_verdict leaves session_idle venue [NumberId 1])
      as [_ Hoff].
    apply Hoff. left. reflexivity.
Defined.

Lemma onAttemptSelect_active run s featureType featureId o :
  _currentOptions (manager s) = Some o ->
  onAttemptSelect run featureType featureId s =
    if matchesFilter featureType [featureId] (filter o)
    then match onSelect o with
         | Some f =>
             match run f [featureId] featureType (called f s) with
             | (Normal _, s') =>
                 match _currentOptions (manager s') with
                 | Some o' => (Normal (negb (truthy (captureOnly o'))), s')
                 | None => (Throw (Error "Cannot read properties of null"), s')
                 end
             | (Throw e, s') => (Throw e, s')
             end
         | None => (Normal (negb (truthy (captureOnly o))), s)
         end
    else (Normal false, s).
Proof.
  intros Hoptions. unfold onAttemptSelect, field. rewrite run_gets, Hoptions.
  destruct (matchesFilter featureType [featureId] (filter o)); [|reflexivity].
  unfold bind at 1. rewrite notify_run.
  destruct (onSelect o) as [f|].
  - destruct (run f [featureId] featureType (called f s)) as [[[]|e] s'];
      [|reflexivity].
    rewrite run_gets. destruct (_currentOptions (manager s')); reflexivity.
  - rewrite run_gets, Hoptions. reflexivity.
Qed.

(** X16: the two ways a selection is intercepted, compared on one feature
    with the controller's filter equal to the options' filter.  Both call
    [onSelect] exactly when the selection passes the filter, and end in the
    state that call leaves.  When no function is called they agree:
    [canSelectFeature] is true exactly when the decision function lets the
    selection through.  After a call that returns, the decision function
    answers from [captureOnly] as read before the call, whereas
    [canSelectFeature] answers from [this._currentOptions.captureOnly] as it
    is after the call, and throws when the call left selection mode
    ([_currentOptions] is null then).  An error thrown by [onSelect] is
    thrown on by both. *)
Theorem interception_paths_compared run s o c featureType featureId :
  _isActive (manager s) = true ->
  _currentOptions (manager s) = Some o ->
  _filter c = filter o ->
  (matchesFilter featureType [featureId] (filter o) = false ->
     canSelectFeature c (Some (onAttemptSelect run)) featureType featureId s
     = (Normal false, s)
     /\ onSetSelection run featureType [featureId] s = (Normal Suppress, s))
  /\ (matchesFilter featureType [featureId] (filter o) = true ->
      onSelect o = None ->
      canSelectFeature c (Some (onAttemptSelect run)) featureType featureId s
      = (Normal (negb (truthy (captureOnly o))), s)
      /\ onSetSelection run featureType [featureId] s = (Normal (verdict_of o), s))
  /\ (forall f s',
        matchesFilter featureType [featureId] (filter o) = true ->
        onSelect o = Some f ->
        run f [featureId] featureType (called f s) = (Normal tt, s') ->
        onSetSelection run featureType [featureId] s = (Normal (verdict_of o), s')
        /\ canSelectFeature c (Some (onAttemptSelect run)) featureType featureId s
           = match _currentOptions (manager s') with
             | Some o' => (Normal (negb (truthy (captureOnly o'))), s')
             | None => (Throw (Error "Cannot read properties of null"), s')
             end)
  /\ (forall f e s',
        matchesFilter featureType [featureId] (filter o) = true ->
        onSelect o = Some f ->
        run f [featureId] featureType (called f s) = (Throw e, s') ->
        onSetSelection run featureType [featureId] s = (Throw e, s')
        /\ canSelectFeature c (Some (onAttemptSelect run)) featureType featureId s
           = (Throw e, s')).
Proof.
  intros Hactive Hoptions Hsync.
  pose proof (onSetSelection_active run s featureType [featureId] o Hactive Hoptions)
    as Hdecision.
  pose proof (onAttemptSelect_active run s featureType featureId o Hoptions)
    as Hattempt.
  assert (Hcan : canSelectFeature c (Some (onAttemptSelect run)) featureType featureId s
                 = match onAttemptSelect run featureType featureId s with
                   | (Normal allowed, s') =>
                       (Normal (allowed
                                && matchesFilter featureType [featureId] (filter o)), s')
                   | (Throw e, s') => (Throw e, s')
                   end).
  { unfold canSelectFeature. rewrite matchesFilter_single, Hsync. unfold bind.
    destruct (onAttemptSelect run featureType featureId s) as [[allowed|e] s'];
      reflexivity. }
  rewrite Hcan, Hattempt, Hdecision. clear Hcan Hattempt Hdecision.
  split; [|split; [|split]].
  - intros ->. split; reflexivity.
  - intros -> ->. rewrite andb_true_r. split; reflexivity.
  - intros f s' -> -> Hrun. unfold result, exec. rewrite Hrun. cbn [fst snd].
    split; [reflexivity|].
    destruct (_currentOptions (manager s')); [|reflexivity].
    rewrite andb_true_r. reflexivity.
  - intros f e s' -> -> Hrun. unfold result, exec. rewrite Hrun. cbn [fst snd].
    split; reflexivity.
Qed.

(** ** Entering and leaving *)

Lemma enterSelectionMode_run s sdk options :
  _isActive (manager s) = false ->
  lock_free s ->
  enterSelectionMode sdk options s =
    (Normal ControlObject,
     {| manager := entered sdk options (manager s);
        page := taken (_sharedStateManager (manager s)) "selectionMode" None (page s);
        trace := trace s ++ entering_calls options (_sidebarController (manager s)) |}).
Proof.
  intros Hactive Hfree. unfold enterSelectionMode, field.
  rewrite run_gets, Hactive, run_gets.
  assert (Hacq : exists b,
            acquireLock (_sharedStateManager (manager s)) "selectionMode" None (page s)
            = (Normal {| success := true; currentOwnerId := None; wasStale := Some b |},
               taken (_sharedStateManager (manager s)) "selectionMode" None (page s))).
  { eexists. apply acquireLock_free.
    destruct Hfree as [Hs|(l & Hs & Hst)]; unfold selection_lock in Hs; rewrite Hs;
      [exact I | right; exact Hst]. }
  destruct Hacq as [b Hacq].
  rewrite (run_normal _ _ _ _ _ (lift_run _ _ _ _ Hacq)). cbn [success negb].
  unfold entering_calls, entered, assign, call, field.
  rewrite !run_modify, run_gets. cbn [manager page trace set__isActive
    set__currentOptions set__currentSdk _sidebarController _isActive _currentOptions
    _currentSdk _selectionInterceptor _sharedStateManager _openLayersController].
  destruct (truthy (keepCurrentTab options) && present (_sidebarController (manager s)));
    destruct (not_false (preventTabSwitching options)
              && present (_sidebarController (manager s)));
    cbn; rewrite <- ?app_assoc; reflexivity.
Qed.

Lemma releaseLock_normal this lockName w :
  exists released,
    releaseLock this lockName w = (Normal released, exec (releaseLock this lockName) w).
Proof.
  unfold exec. rewrite releaseLock_run.
  destruct (stored this w lockName) as [l|]; [|eexists; reflexivity].
  destruct (decide _); eexists; reflexivity.
Qed.

Lemma run_if {S A B} (b : bool) (m1 m2 : M S A) (k : A -> M S B) s :
  bind (if b then m1 else m2) k s = if b then bind m1 k s else bind m2 k s.
Proof. destruct b; reflexivity. Qed.

Ltac session_step :=
  first [rewrite run_assoc | rewrite run_gets | rewrite run_modify | rewrite run_ret];
  cbn [manager page trace _isActive _currentOptions _currentSdk _sidebarController
       _selectionInterceptor _sharedStateManager _openLayersController
       set__isActive set__currentOptions set__currentSdk set__selectionInterceptor
       set__openLayersController present].

Lemma exitSelectionMode_run cancelled s :
  _isActive (manager s) = true ->
  _exitSelectionMode cancelled s =
    (Normal tt,
     {| manager := left (manager s);
        page := exec (releaseLock (_sharedStateManager (manager s)) "selectionMode")
                  (page s);
        trace := trace s ++ exit_calls cancelled (manager s) |}).
Proof.
  intros Hactive. unfold _exitSelectionMode, field. rewrite run_gets, Hactive.
  cbn [negb].
  destruct (releaseLock_normal (_sharedStateManager (manager s)) "selectionMode" (page s))
    as [released Hrel].
  destruct s as [m w tr]. destruct m as [act opts sdk sidebar icpt shared ctl].
  cbn [manager page trace _isActive _currentOptions _currentSdk _sidebarController
       _selectionInterceptor _sharedStateManager _openLayersController] in *.
  unfold exit_calls, left, assign, call.
  cbn [manager page trace _isActive _currentOptions _currentSdk _sidebarController
       _selectionInterceptor _sharedStateManager _openLayersController].
  session_step. rewrite run_if.
  destruct ctl as [c|]; cbn [present]; repeat session_step; rewrite !run_if;
    destruct (not_false (opts ≫= preventTabSwitching) && present sidebar);
    repeat session_step; rewrite ?run_if;
    destruct (truthy (opts ≫= keepCurrentTab) && present sidebar);
    repeat session_step; rewrite ?run_if;
    destruct icpt as [i|]; cbn [present]; repeat session_step;
    (erewrite (run_normal (lift _));
       [|apply lift_run; cbn [page]; exact Hrel]);
    destruct (if cancelled then opts ≫= onCancel else None) as [f|];
    repeat session_step; unfold ret;
    rewrite <- ?app_assoc, ?app_nil_r; reflexivity.
Qed.

Lemma interception_paths_compared_witness :
  (canSelectFeature {| _filter := filter segments_picked |} (Some (onAttemptSelect stays))
     segment (NumberId 1) session_picking
   = (Normal true, called (Fn 0) session_picking)
   /\ onSetSelection stays segment [NumberId 1] session_picking
      = (Normal CONTINUE_INVOCATION, called (Fn 0) session_picking))
  /\ (result (canSelectFeature {| _filter := filter segments_picked |}
                (Some (onAttemptSelect leaves)) segment (NumberId 1)) session_picking
      = Throw (Error "Cannot read properties of null")
      /\ result (onSetSelection leaves segment [NumberId 1]) session_picking
         = Normal CONTINUE_INVOCATION).
Proof.
  split.
  - destruct (interception_paths_compared stays session_picking segments_picked
                {| _filter := filter segments_picked |} segment (NumberId 1))
      as (_ & _ & Hcalled & _); [reflexivity ..|].
    destruct (Hcalled (Fn 0) (called (Fn 0) session_picking)) as (Hdecision & Hanswer);
      [reflexivity ..|].
    split; [exact Hanswer | exact Hdecision].
  - destruct (interception_paths_compared leaves session_picking segments_picked
                {| _filter := filter segments_picked |} segment (NumberId 1))
      as (_ & _ & Hcalled & _); [reflexivity ..|].
    destruct (Hcalled (Fn 0) (exec exit (called (Fn 0) session_picking)))
      as (Hdecision & Hanswer); [reflexivity ..|].
    unfold result. rewrite Hanswer, Hdecision. split; reflexivity.
Defined.

Lemma entered_in_sync sdk options s w tr :
  in_sync {| manager := entered sdk options (manager s); page := w; trace := tr |}.
Proof. exists options, {| _filter := filter options |}. repeat split. Qed.

(** X17: [enterSelectionMode] on a manager that is not in selection mode
    succeeds whenever the ['selectionMode'] lock is absent or stale.  Then
    [isInSelectionMode()] is true, the lock stored is this manager's, taken at
    the current time, the controller filters by [options.filter], and the
    collaborators were asked, in this order, to save the tab (if
    [keepCurrentTab] and there is a sidebar controller), to prevent tab
    switching (unless [preventTabSwitching] is false or there is no sidebar
    controller), to activate and to enable. *)
Theorem enterSelectionMode_succeeds s sdk options :
  result isInSelectionMode s = Normal false ->
  lock_free s ->
  result (enterSelectionMode sdk options) s = Normal ControlObject
  /\ result isInSelectionMode (exec (enterSelectionMode sdk options) s) = Normal true
  /\ selection_lock (exec (enterSelectionMode sdk options) s)
     = Some {| ownerId := Some (getInstanceId (_sharedStateManager (manager s)));
               timestamp := clock (page s); metadata := None |}
  /\ result getFilter (exec (enterSelectionMode sdk options) s) = Normal (filter options)
  /\ in_sync (exec (enterSelectionMode sdk options) s)
  /\ trace (exec (enterSelectionMode sdk options) s)
     = (trace s ++ entering_calls options (_sidebarController (manager s)))%list.
Proof.
  unfold result at 1, isInSelectionMode, field, gets. cbn [fst].
  intros [= Hactive] Hfree. unfold result, exec.
  rewrite (enterSelectionMode_run s sdk options Hactive Hfree). cbn [fst snd].
  split; [reflexivity|]. split; [reflexivity|]. split; [|split; [reflexivity|split]].
  - unfold selection_lock. cbn [manager page entered _sharedStateManager].
    apply stored_taken.
  - apply entered_in_sync.
  - reflexivity.
Qed.

Lemma enterSelectionMode_succeeds_witness :
  result (enterSelectionMode (Sdk 0) segments_only) session_idle = Normal ControlObject
  /\ result isInSelectionMode (exec (enterSelectionMode (Sdk 0) segments_only) session_idle)
     = Normal true.
Proof.
  destruct (enterSelectionMode_succeeds session_idle (Sdk 0) segments_only)
    as (Hr & Ha & _).
  - vm_compute. reflexivity.
  - left. vm_compute. reflexivity.
  - split; [exact Hr | exact Ha].
Defined.

Lemma left_idle m : idle m -> left m = m.
Proof.
  destruct m as [act opts sdk sidebar icpt shared ctl].
  intros (Ha & Ho & Hs & Hi & Hc). cbn in *. subst. reflexivity.
Qed.

Lemma exit_calls_entered sdk options m :
  exit_calls false (entered sdk options m)
  = leaving_calls options (_sidebarController m).
Proof. reflexivity. Qed.

(** X18: entering and then leaving.  From a manager as the constructor
    leaves it and a lock that is absent or stale, [enterSelectionMode]
    followed by the control object's [exit] gives the manager back as it was,
    with no ['selectionMode'] lock stored and the other locks and the data
    untouched; every call made on entering is answered on leaving
    (deactivate, allow tab switching, restore the tab, disable). *)
Theorem enter_exit_round_trip s sdk options :
  idle (manager s) ->
  lock_free s ->
  result exit (exec (enterSelectionMode sdk options) s) = Normal tt
  /\ manager (exec exit (exec (enterSelectionMode sdk options) s)) = manager s
  /\ selection_lock (exec exit (exec (enterSelectionMode sdk options) s)) = None
  /\ (forall ns,
        locks_of ns (page (exec exit (exec (enterSelectionMode sdk options) s)))
        = if decide (ns = getNamespace (_sharedStateManager (manager s)))
          then delete "selectionMode" (locks_of ns (page s))
          else locks_of ns (page s))
  /\ (forall ns,
        data_of ns (page (exec exit (exec (enterSelectionMode sdk options) s)))
        = data_of ns (page s))
  /\ trace (exec exit (exec (enterSelectionMode sdk options) s))
     = (trace s ++ entering_calls options (_sidebarController (manager s))
                ++ leaving_calls options (_sidebarController (manager s)))%list.
Proof.
  intros Hidle Hfree. pose proof Hidle as (Hactive & _).
  unfold result, exec, exit.
  rewrite (enterSelectionMode_run s sdk options Hactive Hfree). cbn [fst snd].
  rewrite exitSelectionMode_run by reflexivity. cbn [fst snd manager page trace].
  change (_sharedStateManager (entered sdk options (manager s)))
    with (_sharedStateManager (manager s)).
  set (shared := _sharedStateManager (manager s)).
  destruct (releaseLock_owner_only_aux shared
              (taken shared "selectionMode" None (page s)) "selectionMode"
              (fresh_lock shared (page s) None)) as (_ & Hlocks & Hdata).
  { apply stored_taken. }
  { reflexivity. }
  rewrite locks_of_taken, delete_insert_eq in Hlocks.
  split; [reflexivity|]. split; [|split; [|split; [|split]]].
  - apply (left_idle (manager s)) in Hidle as Hleft.
    rewrite <- Hleft at 2. reflexivity.
  - unfold selection_lock. cbn [manager page left entered _sharedStateManager].
    fold shared. rewrite stored_locks_of, Hlocks. apply lookup_delete_eq.
  - intros ns. unfold getNamespace. fold shared. case_decide as Hns.
    + subst ns. exact Hlocks.
    + unfold exec. rewrite releaseLock_run, stored_taken.
      rewrite (decide_True (P := owned_by (_instanceId shared) _)) by reflexivity.
      cbn [snd]. rewrite locks_of_alter_locks_ne by exact Hns.
      apply locks_of_taken_ne, Hns.
  - intros ns. rewrite Hdata. apply data_of_taken.
  - rewrite exit_calls_entered, app_assoc. reflexivity.
Qed.

Lemma enter_exit_round_trip_witness :
  manager (exec exit (exec (enterSelectionMode (Sdk 0) segments_only) session_idle))
  = manager session_idle
  /\ trace (exec exit (exec (enterSelectionMode (Sdk 0) segments_only) session_idle))
     = [Sidebar_preventTabSwitching; OpenLayers_activate; Interceptor_enable;
        OpenLayers_deactivate; Sidebar_allowTabSwitching; Interceptor_disable].
Proof.
  destruct (enter_exit_round_trip session_idle (Sdk 0) segments_only)
    as (_ & Hm & _ & _ & _ & Ht).
  - vm_compute. repeat split.
  - left. vm_compute. reflexivity.
  - split; [exact Hm | exact Ht].
Defined.

Lemma exitSelectionMode_inactive cancelled s :
  _isActive (manager s) = false -> _exitSelectionMode cancelled s = (Normal tt, s).
Proof.
  intros Hactive. unfold _exitSelectionMode, field. rewrite run_gets, Hactive.
  reflexivity.
Qed.

Lemma exit_leaves_idle s :
  _isActive (manager s) = true \/ idle (manager s) ->
  idle (manager (exec exit s)).
Proof.
  unfold exec, exit. intros [Hactive|Hidle].
  - rewrite exitSelectionMode_run by exact Hactive. repeat split.
  - rewrite exitSelectionMode_inactive by apply Hidle. exact Hidle.
Qed.

(** X19: once selection mode is left, the control object is spent: its
    [exit] does nothing, its [updateFilter] does nothing, and its [getFilter]
    throws, for it reads [filter] of the [null] in [_currentOptions]. *)
Theorem control_object_after_exit s newFilter :
  _isActive (manager s) = true \/ idle (manager s) ->
  result isInSelectionMode (exec exit s) = Normal false
  /\ exit (exec exit s) = (Normal tt, exec exit s)
  /\ updateFilter newFilter (exec exit s) = (Normal tt, exec exit s)
  /\ getFilter (exec exit s)
     = (Throw (Error "Cannot read properties of null"), exec exit s).
Proof.
  intros Hstate. destruct (exit_leaves_idle s Hstate) as (Hactive & Hoptions & _).
  split; [|split; [|split]].
  - unfold result, isInSelectionMode, field, gets. cbn [fst]. rewrite Hactive.
    reflexivity.
  - apply exitSelectionMode_inactive, Hactive.
  - unfold updateFilter, field. rewrite run_gets, Hoptions. reflexivity.
  - unfold getFilter, field. rewrite run_gets, Hoptions. reflexivity.
Qed.

Lemma control_object_after_exit_witness :
  getFilter (exec exit session_active)
  = (Throw (Error "Cannot read properties of null"), exec exit session_active).
Proof.
  destruct (control_object_after_exit session_active
              {| new_types := None; new_allowedIds := None;
                 new_permanentHazardSubtypes := None |}) as (_ & _ & _ & Hget).
  - left. vm_compute. reflexivity.
  - exact Hget.
Defined.

(** X20: while in selection mode, [updateFilter(newFilter)] makes
    [getFilter()] return the old filter with the properties of [newFilter]
    written over it, properties [newFilter] does not have staying as they
    were; the controller's filter follows, and nothing else changes: flag,
    page and collaborators are as before. *)
Theorem updateFilter_then_getFilter s o c newFilter :
  _currentOptions (manager s) = Some o ->
  _openLayersController (manager s) = Some c ->
  _filter c = filter o ->
  result (updateFilter newFilter) s = Normal tt
  /\ result getFilter (exec (updateFilter newFilter) s)
     = Normal {| types := default (types (filter o)) (new_types newFilter);
                 allowedIds := default (allowedIds (filter o)) (new_allowedIds newFilter);
                 permanentHazardSubtypes :=
                   default (permanentHazardSubtypes (filter o))
                     (new_permanentHazardSubtypes newFilter) |}
  /\ in_sync (exec (updateFilter newFilter) s)
  /\ _isActive (manager (exec (updateFilter newFilter) s)) = _isActive (manager s)
  /\ page (exec (updateFilter newFilter) s) = page s
  /\ trace (exec (updateFilter newFilter) s) = trace s.
Proof.
  intros Ho Hc Hsync.
  assert (Hrun : updateFilter newFilter s =
            (Normal tt,
             {| manager :=
                  set__openLayersController (Some (controller_updateFilter c newFilter))
                    (set__currentOptions
                       (Some (set_filter (spread (filter o) newFilter) o)) (manager s));
                page := page s; trace := trace s |})).
  { unfold updateFilter, field, assign. rewrite run_gets, Ho.
    rewrite run_modify, run_gets. cbn [manager set__currentOptions _openLayersController].
    rewrite Hc. reflexivity. }
  unfold result, exec. rewrite Hrun. cbn [fst snd].
  split; [reflexivity|]. split; [reflexivity|]. split; [|repeat split].
  eexists _, _. split; [reflexivity|]. split; [reflexivity|].
  cbn. rewrite Hsync. reflexivity.
Qed.

Lemma updateFilter_then_getFilter_witness :
  result getFilter
    (exec (updateFilter {| new_types := Some (Some [venue]);
                           new_allowedIds := Some (Some [NumberId 10; NumberId 20]);
                           new_permanentHazardSubtypes := None |}) session_active)
  = Normal {| types := Some [venue];
              allowedIds := Some [NumberId 10; NumberId 20];
              permanentHazardSubtypes := None |}.
Proof.
  destruct (updateFilter_then_getFilter session_active segments_only
              {| _filter := filter segments_only |}
              {| new_types := Some (Some [venue]);
                 new_allowedIds := Some (Some [NumberId 10; NumberId 20]);
                 new_permanentHazardSubtypes := None |}) as (_ & Hget & _).
  - vm_compute. reflexivity.
  - vm_compute. reflexivity.
  - reflexivity.
  - exact Hget.
Defined.

(** X21: leaving selection mode never releases a lock this manager does not
    own.  If the ['selectionMode'] lock has meanwhile gone to another
    instance, [exit] still resets the manager and calls the collaborators, and
    the page, lock included, is as before. *)
Theorem exit_keeps_foreign_lock s l :
  result isInSelectionMode s = Normal true ->
  selection_lock s = Some l ->
  ownerId l <> Some (getInstanceId (_sharedStateManager (manager s))) ->
  result exit s = Normal tt
  /\ result isInSelectionMode (exec exit s) = Normal false
  /\ page (exec exit s) = page s
  /\ selection_lock (exec exit s) = Some l.
Proof.
  unfold result at 1, isInSelectionMode, field, gets. cbn [fst].
  intros [= Hactive] Hlock Howner. unfold result, exec, exit.
  rewrite exitSelectionMode_run by exact Hactive. cbn [fst snd].
  assert (Hpage : exec (releaseLock (_sharedStateManager (manager s)) "selectionMode")
                    (page s) = page s).
  { unfold exec. rewrite releaseLock_not_owner.
    - cbn [snd]. apply ensure_initialised.
      destruct (stored_Some _ _ _ _ Hlock) as (st & Hst & _). exists st. exact Hst.
    - intros l'. unfold selection_lock in Hlock. rewrite Hlock. intros [= <-].
      exact Howner. }
  split; [reflexivity|]. split; [reflexivity|]. split.
  - cbn [page]. exact Hpage.
  - unfold selection_lock. cbn [manager page left _sharedStateManager].
    rewrite Hpage. exact Hlock.
Qed.

Lemma exit_keeps_foreign_lock_witness :
  result exit session_overtaken = Normal tt
  /\ selection_lock (exec exit session_overtaken) = Some lock_of_other.
Proof.
  destruct (exit_keeps_foreign_lock session_overtaken lock_of_other) as (Hr & _ & _ & Hl).
  - vm_compute. reflexivity.
  - vm_compute. reflexivity.
  - discriminate.
  - split; [exact Hr | exact Hl].
Defined.

(** ** Two managers on one page *)

Lemma built_shared m :
  built m ->
  constructed (_sharedStateManager m)
  /\ _namespace (_sharedStateManager m) = "__WME_SDK_PLUS_SELECTION_MODE__"
  /\ _staleLockTimeout (_sharedStateManager m) = 60000.
Proof.
  intros (sidebar & random & w & m0 & Hnew & ->).
  unfold result, new_SelectionModeManager in Hnew.
  rewrite (run_normal _ _ _ _ _ (new_SharedStateManager_run _ _ _)) in Hnew.
  cbn in Hnew. injection Hnew as <-. cbn [_sharedStateManager].
  split; [|split; reflexivity].
  exists {| namespace := Some "__WME_SDK_PLUS_SELECTION_MODE__"; version_ := None;
            staleLockTimeout := Some 60000 |}, random, w.
  unfold result. rewrite new_SharedStateManager_run. reflexivity.
Qed.

Lemma enterSelectionMode_refused s sdk options l :
  _isActive (manager s) = false ->
  selection_lock s = Some l ->
  truthy_owner (ownerId l) = true ->
  ~ stale (_sharedStateManager (manager s)) (page s) l ->
  enterSelectionMode sdk options s = (Throw (Error ANOTHER_INSTANCE_ACTIVE), s).
Proof.
  intros Hactive Hlock Ho Hfresh. unfold enterSelectionMode, field.
  rewrite run_gets, Hactive, run_gets.
  rewrite (run_normal _ _ _ _ _
             (lift_run _ _ _ _
                (acquireLock_held _ _ "selectionMode" None l Hlock Ho Hfresh))).
  cbn [success negb]. unfold throw. destruct s; reflexivity.
Qed.

(** X22: two selection-mode managers made by the constructor share one
    lock with a 60000 ms timeout.  After one has entered selection mode, the
    other's [enterSelectionMode], [ms] milliseconds later, throws the
    another-instance error and changes nothing as long as [ms] is at most
    60000; past that it succeeds although the first manager never left, and
    both report [isInSelectionMode()] true. *)
Theorem selection_mode_is_a_lease s other sdk options sdk' options' ms :
  built (manager s) ->
  built other ->
  _isActive (manager s) = false ->
  lock_free s ->
  _isActive other = false ->
  (ms <= 60000 ->
     enterSelectionMode sdk' options'
       (on_page_of (exec (enterSelectionMode sdk options) s) other ms)
     = (Throw (Error ANOTHER_INSTANCE_ACTIVE),
        on_page_of (exec (enterSelectionMode sdk options) s) other ms))
  /\ (60000 < ms ->
      result (enterSelectionMode sdk' options')
        (on_page_of (exec (enterSelectionMode sdk options) s) other ms)
      = Normal ControlObject
      /\ result isInSelectionMode
           (exec (enterSelectionMode sdk' options')
              (on_page_of (exec (enterSelectionMode sdk options) s) other ms))
         = Normal true
      /\ result isInSelectionMode (exec (enterSelectionMode sdk options) s)
         = Normal true).
Proof.
  intros Hbuilt Hbuilt' Hactive Hfree Hactive'.
  destruct (built_shared _ Hbuilt) as (Hnew & Hns & _).
  destruct (built_shared _ Hbuilt') as (_ & Hns' & Htimeout).
  assert (Hentered : exec (enterSelectionMode sdk options) s
            = {| manager := entered sdk options (manager s);
                 page := taken (_sharedStateManager (manager s)) "selectionMode" None
                           (page s);
                 trace := (trace s
                           ++ entering_calls options (_sidebarController (manager s)))%list
              |}).
  { unfold exec. rewrite (enterSelectionMode_run s sdk options Hactive Hfree).
    reflexivity. }
  rewrite Hentered. unfold on_page_of. cbn [page].
  set (shared := _sharedStateManager (manager s)) in *.
  set (w := advance ms (taken shared "selectionMode" None (page s))).
  assert (Hlock : stored (_sharedStateManager other) w "selectionMode"
                  = Some (fresh_lock shared (page s) None)).
  { rewrite (stored_same_namespace _ shared) by congruence.
    apply stored_taken. }
  assert (Hage : stale (_sharedStateManager other) w (fresh_lock shared (page s) None)
                 <-> 60000 < ms).
  { unfold stale, w. cbn [clock advance timestamp fresh_lock].
    rewrite taken_clock, Htimeout. lia. }
  split.
  - intros Hms. apply enterSelectionMode_refused with (l := fresh_lock shared (page s) None).
    + exact Hactive'.
    + exact Hlock.
    + apply constructed_owner_truthy, Hnew.
    + rewrite Hage. lia.
  - intros Hms.
    assert (Hfree' : lock_free {| manager := other; page := w; trace := [] |}).
    { right. exists (fresh_lock shared (page s) None). split; [exact Hlock|].
      apply Hage, Hms. }
    unfold result, exec.
    rewrite (enterSelectionMode_run {| manager := other; page := w; trace := [] |}
               sdk' options' Hactive' Hfree').
    repeat split.
Qed.

Lemma selection_mode_is_a_lease_witness :
  enterSelectionMode (Sdk 1) segments_only
    (on_page_of (exec (enterSelectionMode (Sdk 0) segments_only) session_idle)
       (selection_manager "xyz") 60000)
  = (Throw (Error ANOTHER_INSTANCE_ACTIVE),
     on_page_of (exec (enterSelectionMode (Sdk 0) segments_only) session_idle)
       (selection_manager "xyz") 60000)
  /\ result (enterSelectionMode (Sdk 1) segments_only)
       (on_page_of (exec (enterSelectionMode (Sdk 0) segments_only) session_idle)
          (selection_manager "xyz") 60001)
     = Normal ControlObject.
Proof.
  assert (Hbuilt : forall random, built (selection_manager random)).
  { intros random. exists (Some (Sidebar 0)), random, blank_page.
    eexists. split; [vm_compute; reflexivity | reflexivity]. }
  assert (Hfree : lock_free session_idle) by (left; vm_compute; reflexivity).
  split.
  - destruct (selection_mode_is_a_lease session_idle (selection_manager "xyz")
                (Sdk 0) segments_only (Sdk 1) segments_only 60000
                (Hbuilt "abc") (Hbuilt "xyz") eq_refl Hfree eq_refl) as [Hrefused _].
    apply Hrefused. lia.
  - destruct (selection_mode_is_a_lease session_idle (selection_manager "xyz")
                (Sdk 0) segments_only (Sdk 1) segments_only 60001
                (Hbuilt "abc") (Hbuilt "xyz") eq_refl Hfree eq_refl) as [_ Htaken].
    apply Htaken. lia.
Defined.

End selection_mode.

(** * The single-lock manager *)

Section single_lock.
Import SharedSelectionState.

(** The record a successful [acquireLock] leaves on the page. *)
Lemma acquireLock_true this p :
  result (acquireLock this) p = Normal true ->
  exists v,
    exec (acquireLock this) p =
      {| shared := Some {| version := v; isActive := true;
                           activeInstanceId := Some (_instanceId this);
                           timestamp := clock p |};
         clock := clock p |}.
Proof.
  destruct p as [[[v act own ts]|] t]; unfold result, exec, acquireLock; cbn.
  - destruct (negb act || bool_decide (t - ts > 60000)); cbn; [|discriminate].
    intros _. exists v. reflexivity.
  - intros _. exists VERSION. reflexivity.
Qed.

Lemma acquireLock_on_held this v owner ts t :
  acquireLock this
    {| shared := Some {| version := v; isActive := true; activeInstanceId := owner;
                         timestamp := ts |};
       clock := t |}
  = if bool_decide (t - ts > 60000)
    then (Normal true,
          {| shared := Some {| version := v; isActive := true;
                               activeInstanceId := Some (_instanceId this);
                               timestamp := t |};
             clock := t |})
    else (Normal false,
          {| shared := Some {| version := v; isActive := true; activeInstanceId := owner;
                               timestamp := ts |};
             clock := t |}).
Proof.
  unfold acquireLock. cbn. destruct (bool_decide (t - ts > 60000)); reflexivity.
Qed.

(** X23: the single lock is a lease of 60000 ms.  After an instance's
    [acquireLock] returned true, every [acquireLock] made [ms] milliseconds
    later, by that instance or another, returns false and changes nothing as
    long as [ms] is at most 60000, and returns true past that.  All along the
    first instance's [hasLock] stays true, while [isAnyInstanceActive] turns
    false as soon as the minute is over. *)
Theorem single_lock_is_a_lease a b p ms :
  result (acquireLock a) p = Normal true ->
  result (acquireLock b) (advance ms (exec (acquireLock a) p))
  = Normal (bool_decide (60000 < ms))
  /\ (ms <= 60000 ->
      exec (acquireLock b) (advance ms (exec (acquireLock a) p))
      = advance ms (exec (acquireLock a) p))
  /\ result (hasLock a) (advance ms (exec (acquireLock a) p)) = Normal true
  /\ result (isAnyInstanceActive b) (advance ms (exec (acquireLock a) p))
     = Normal (bool_decide (ms <= 60000)).
Proof.
  intros Htaken. destruct (acquireLock_true a p Htaken) as [v ->].
  unfold advance. cbn [shared clock].
  assert (Hage : bool_decide (clock p + ms - clock p > 60000) = bool_decide (60000 < ms)).
  { apply bool_decide_ext. lia. }
  split; [|split; [|split]].
  - unfold result. rewrite acquireLock_on_held, Hage.
    destruct (bool_decide (60000 < ms)); reflexivity.
  - intros Hms. unfold exec. rewrite acquireLock_on_held, Hage.
    rewrite bool_decide_eq_false_2 by lia. reflexivity.
  - unfold result, hasLock. cbn. rewrite bool_decide_eq_true_2 by reflexivity.
    reflexivity.
  - unfold result, isAnyInstanceActive. cbn. rewrite Hage. f_equal.
    destruct (decide (ms <= 60000)) as [Hms|Hms].
    + rewrite (bool_decide_eq_true_2 _ Hms), bool_decide_eq_false_2 by lia. reflexivity.
    + rewrite (bool_decide_eq_false_2 _ Hms), bool_decide_eq_true_2 by lia. reflexivity.
Qed.

Lemma single_lock_is_a_lease_witness :
  result (acquireLock second) (advance 60000 (exec (acquireLock first) page_created))
  = Normal false
  /\ result (acquireLock second) (advance 60001 (exec (acquireLock first) page_created))
     = Normal true.
Proof.
  assert (Htaken : result (acquireLock first) page_created = Normal true).
  { vm_compute. reflexivity. }
  split.
  - exact (proj1 (single_lock_is_a_lease first second page_created 60000 Htaken)).
  - exact (proj1 (single_lock_is_a_lease first second page_created 60001 Htaken)).
Defined.

(** X24: only the holder releases.  While an instance holds the single
    lock, [releaseLock] of an instance with another id changes nothing;
    [releaseLock] of the holder stamps the record with the current time and
    clears it, so that nobody's [hasLock] is true, [isAnyInstanceActive] is
    false and the next [acquireLock], whoever makes it, returns true at
    once. *)
Theorem single_lock_release a b c p ms :
  result (acquireLock a) p = Normal true ->
  (getInstanceId b <> getInstanceId a ->
     releaseLock b (advance ms (exec (acquireLock a) p))
     = (Normal tt, advance ms (exec (acquireLock a) p)))
  /\ result (hasLock c) (exec (releaseLock a) (advance ms (exec (acquireLock a) p)))
     = Normal false
  /\ result (isAnyInstanceActive c)
       (exec (releaseLock a) (advance ms (exec (acquireLock a) p))) = Normal false
  /\ result (acquireLock c) (exec (releaseLock a) (advance ms (exec (acquireLock a) p)))
     = Normal true
  /\ (shared (exec (releaseLock a) (advance ms (exec (acquireLock a) p)))
      ≫= fun state => Some (timestamp state)) = Some (clock p + ms).
Proof.
  intros Htaken. destruct (acquireLock_true a p Htaken) as [v ->].
  unfold advance, getInstanceId. cbn [shared clock]. split; [|split; [|split; [|split]]].
  - intros Hne. unfold releaseLock. cbn.
    rewrite decide_False by congruence. reflexivity.
  - unfold result, exec, releaseLock, hasLock. cbn.
    rewrite decide_True by reflexivity. cbn. reflexivity.
  - unfold result, exec, releaseLock, isAnyInstanceActive. cbn.
    rewrite decide_True by reflexivity. cbn. reflexivity.
  - unfold result, exec, releaseLock, acquireLock. cbn.
    rewrite decide_True by reflexivity. cbn. reflexivity.
  - unfold exec, releaseLock. cbn. rewrite decide_True by reflexivity. cbn. reflexivity.
Qed.

Lemma single_lock_release_witness :
  releaseLock second (advance 10 (exec (acquireLock first) page_created))
  = (Normal tt, advance 10 (exec (acquireLock first) page_created))
  /\ result (acquireLock second)
       (exec (releaseLock first) (advance 10 (exec (acquireLock first) page_created)))
     = Normal true.
Proof.
  assert (Htaken : result (acquireLock first) page_created = Normal true).
  { vm_compute. reflexivity. }
  destruct (single_lock_release first second second page_created 10 Htaken)
    as (Hother & _ & _ & Hnext & _).
  split; [|exact Hnext]. apply Hother. discriminate.
Defined.

End single_lock.
